(** * Budget tracker: statistics, CSV export and the transaction endpoints

    A shallow embedding of [app.py] (Flask handlers over one SQLite table)
    and the properties of its reporting logic.

    Modelling conventions.
    - Text is [string]; every character is one [ascii] code, compared by
      code as SQLite's BINARY collation does.  Characters with a code
      beyond 255, and what SQLite's text functions do at an embedded NUL
      character, are outside the model.
    - A Python [float] or SQLite REAL is a [pyfloat]: a finite number, an
      infinity or NaN.  Finite values are exact rationals, so the rounding
      and the overflow of binary64 are outside the model; no theorem uses a
      law of addition that binary64 lacks.  [SUM] is NULL when its result
      is NaN, and a NaN bound to a statement is bound as NULL.
    - The table is the list of its rows in rowid order together with the
      AUTOINCREMENT counter; each handler is a function of the store.
    - A Python [dict] whose key order is not observable is a [gmap]; the
      [monthly] dict, whose insertion order becomes the order of the output
      list, is an association list.
    - The SQL statements are modelled by what SQLite computes for them:
      [date LIKE ?] is SQLite's pattern match (wildcards [%] and [_], ASCII
      case folded), [GROUP BY] yields its groups in ascending key order,
      [ORDER BY date] is a stable sort of the scan.  No statement of the
      theorems depends on how ties between equal dates are broken.
    - The [sqlite3] module binds [None], [bool], [int], [float] and [str];
      an [int] outside 64 bits raises [OverflowError], a list or dict
      raises a binding error and a [str] that holds a lone surrogate raises
      [UnicodeEncodeError]; the handlers catch none of the three.
    - [str.lower] and [str.capitalize] are modelled on ASCII letters.
    - An exception that leaves a handler is an [outcome] of its own
      ([Raise]); Flask turns it into a 500 response. *)

From Stdlib Require Import ZArith QArith Qabs List Lia Ascii String.
From Stdlib Require Import Sorting.Sorted Sorting.Permutation DecimalString.
From stdpp Require Import gmap strings.

Open Scope string_scope.
Open Scope list_scope.

(** ** Text helpers (Python [str] methods, SQLite text functions) *)

Module Text.

Definition is_upper (c : ascii) : bool :=
  let n := N_of_ascii c in ((65 <=? n) && (n <=? 90))%N.

Definition is_lower (c : ascii) : bool :=
  let n := N_of_ascii c in ((97 <=? n) && (n <=? 122))%N.

Definition lower_char (c : ascii) : ascii :=
  if is_upper c then ascii_of_N (N_of_ascii c + 32) else c.

Definition upper_char (c : ascii) : ascii :=
  if is_lower c then ascii_of_N (N_of_ascii c - 32) else c.

(** [s.lower()] on ASCII letters; no letter beyond ASCII lower-cases to
    one of [d], [e], [s], [c], so the comparison with ["desc"] is exact. *)
Fixpoint lower (s : string) : string :=
  match s with
  | EmptyString => EmptyString
  | String c s' => String (lower_char c) (lower s')
  end.

(** [s.capitalize()]: first character upper-cased, the rest lower-cased.
    Python also changes the case of letters beyond ASCII; a statement that
    mentions [capitalize] is about ASCII text ([is_ascii]). *)
Definition capitalize (s : string) : string :=
  match s with
  | EmptyString => EmptyString
  | String c s' => String (upper_char c) (lower s')
  end.

(** [str(n)] for a Python [int]. *)
Definition str_of_Z (z : Z) : string := NilZero.string_of_int (Z.to_int z).

(** SQLite [substr(date, 1, 7)]. *)
Definition substr7 (s : string) : string := String.substring 0 7 s.

(** SQLite's [LIKE] without ESCAPE: [%] matches any run of characters,
    [_] matches exactly one, every other pattern character matches itself
    up to ASCII case. *)
Definition like_char_eq (p c : ascii) : bool :=
  Ascii.eqb (lower_char p) (lower_char c).

Fixpoint like (pat s : string) {struct pat} : bool :=
  match pat with
  | EmptyString => match s with EmptyString => true | String _ _ => false end
  | String p pat' =>
      if Ascii.eqb p "%" then
        (fix any (s : string) : bool :=
           like pat' s ||
           match s with EmptyString => false | String _ s' => any s' end) s
      else
        match s with
        | EmptyString => false
        | String c s' =>
            (if Ascii.eqb p "_" then true else like_char_eq p c) && like pat' s'
        end
  end.

(** A pattern character that [LIKE] reads literally and case-sensitively. *)
Definition plain_char (c : ascii) : bool :=
  negb (Ascii.eqb c "%") && negb (Ascii.eqb c "_")
  && negb (is_upper c) && negb (is_lower c).

Fixpoint plain (s : string) : bool :=
  match s with
  | EmptyString => true
  | String c s' => plain_char c && plain s'
  end.

(** Strict order of BINARY collation. *)
Definition str_lt (a b : string) : Prop := String.compare a b = Lt.

End Text.

(** ** Numbers *)

(** The values of a Python [float] and of a REAL column. *)
Inductive pyfloat :=
| Finite (q : Q)
| PlusInf
| MinusInf
| NaN.

Module Float.

(** [x + y] *)
Definition add (x y : pyfloat) : pyfloat :=
  match x, y with
  | NaN, _ | _, NaN => NaN
  | Finite a, Finite b => Finite (a + b)
  | PlusInf, MinusInf | MinusInf, PlusInf => NaN
  | PlusInf, _ | _, PlusInf => PlusInf
  | MinusInf, _ | _, MinusInf => MinusInf
  end.

Definition opp (x : pyfloat) : pyfloat :=
  match x with
  | Finite a => Finite (- a)
  | PlusInf => MinusInf
  | MinusInf => PlusInf
  | NaN => NaN
  end.

(** [x - y] *)
Definition sub (x y : pyfloat) : pyfloat := add x (opp y).

Definition is_nan (x : pyfloat) : bool :=
  match x with NaN => true | _ => false end.

(** [x == 0.0]: the floats that are falsy. *)
Definition is_zero (x : pyfloat) : bool :=
  match x with Finite a => Qeq_bool a 0 | _ => false end.

(** The same value: equal numbers, the same infinity, or NaN on both
    sides. *)
Definition same (x y : pyfloat) : Prop :=
  match x, y with
  | Finite a, Finite b => (a == b)%Q
  | PlusInf, PlusInf | MinusInf, MinusInf | NaN, NaN => True
  | _, _ => False
  end.

End Float.

(** ** The store *)

Record transaction := mkTx {
  tx_id : Z;
  tx_description : string;
  tx_amount : pyfloat;
  tx_type : string;
  tx_category : string;
  tx_date : string
}.

(** [rows]: the table in rowid order.  [seq]: the largest rowid ever
    handed out (table [sqlite_sequence] of an AUTOINCREMENT key). *)
Record store := mkStore {
  rows : list transaction;
  seq : Z
}.

Definition empty_store : store := mkStore [] 0.

Module Sql.

Import Text.

(** The accumulator of [SUM(amount)] after the rows of one group, added in
    scan order. *)
Definition total (l : list transaction) : pyfloat :=
  fold_left Float.add (map tx_amount l) (Finite 0).

(** [SUM(amount)]: a result that is NaN comes back as NULL ([None]). *)
Definition sum_amounts (l : list transaction) : option pyfloat :=
  if Float.is_nan (total l) then None else Some (total l).

(** Distinct keys in ascending order: the order in which SQLite's sorter
    hands the groups of a [GROUP BY] to the aggregate. *)
Fixpoint insert_uniq (k : string) (l : list string) : list string :=
  match l with
  | [] => [k]
  | h :: t =>
      match String.compare k h with
      | Lt => k :: l
      | Eq => l
      | Gt => h :: insert_uniq k t
      end
  end.

Definition sort_uniq (l : list string) : list string :=
  fold_right insert_uniq [] l.

(** [SELECT key, SUM(amount) FROM l GROUP BY key] *)
Definition group_sum (key : transaction -> string) (l : list transaction)
  : list (string * option pyfloat) :=
  map (fun k => (k, sum_amounts (List.filter (fun t => String.eqb (key t) k) l)))
      (sort_uniq (map key l)).

(** [WHERE date LIKE ?] with the parameter [f'{month}%']. *)
Definition where_like (month : string) (l : list transaction) : list transaction :=
  List.filter (fun t => like (month +:+ "%") (tx_date t)) l.

Definition where_expense (l : list transaction) : list transaction :=
  List.filter (fun t => String.eqb (tx_type t) "expense") l.

(** [ORDER BY date ASC|DESC]: a stable sort of the scan. *)
Inductive direction := ASC | DESC.

Definition date_le (d : direction) (a b : transaction) : bool :=
  match d with
  | ASC => String.leb (tx_date a) (tx_date b)
  | DESC => String.leb (tx_date b) (tx_date a)
  end.

Fixpoint insert_by (le : transaction -> transaction -> bool)
  (x : transaction) (l : list transaction) : list transaction :=
  match l with
  | [] => [x]
  | h :: t => if le x h then x :: l else h :: insert_by le x t
  end.

Definition order_by_date (d : direction) (l : list transaction) : list transaction :=
  fold_right (insert_by (date_le d)) [] l.

Definition date_ord (d : direction) (a b : transaction) : Prop :=
  date_le d a b = true.

(** [substr(date, 1, 7) AS month] and the rows of one month. *)
Definition month_of (t : transaction) : string := substr7 (tx_date t).

Definition in_month (l : list transaction) (m : string) : list transaction :=
  List.filter (fun t => String.eqb (month_of t) m) l.

Definition entry_rows (m : string) (rs : list (string * option pyfloat))
  : list (string * string * option pyfloat) :=
  map (fun r => (m, fst r, snd r)) rs.

(** [SELECT substr(date,1,7) AS month, type, SUM(amount)
     FROM transactions GROUP BY month, type ORDER BY month] *)
Definition month_type_sums (l : list transaction)
  : list (string * string * option pyfloat) :=
  flat_map (fun m => entry_rows m (group_sum tx_type (in_month l m)))
           (sort_uniq (map month_of l)).

End Sql.

(** ** Statistics engine: [get_statistics] *)

Inductive jval :=
| JStr (s : string)
| JNum (x : pyfloat)
| JNull.

(** A fetched sum as a JSON value: NULL is [None], which is [null]. *)
Definition json_of (v : option pyfloat) : jval :=
  match v with Some x => JNum x | None => JNull end.

Module Dict.

(** [for row in rows: d[row[0]] = g(row[1])] *)
Definition fill {V : Type} (g : option pyfloat -> V)
  (res : list (string * option pyfloat))
  (init : gmap string V) : gmap string V :=
  fold_left (fun d row => <[fst row := g (snd row)]> d) res init.

End Dict.

Module Stats.

Import Text Sql Dict.

(** [totals = {'income': 0, 'expense': 0}; for row in ...: totals[row[0]] = row[1]] *)
Definition totals_of (res : list (string * option pyfloat))
  : gmap string (option pyfloat) :=
  fold_left (fun totals row => <[fst row := snd row]> totals) res
            (<["income" := Some (Finite 0)]> (<["expense" := Some (Finite 0)]> ∅)).

(** The [monthly] dict, in insertion order. *)
Fixpoint od_mem (k : string) (d : list (string * gmap string jval)) : bool :=
  match d with
  | [] => false
  | (k', _) :: d' => String.eqb k' k || od_mem k d'
  end.

Fixpoint od_update (k : string) (f : gmap string jval -> gmap string jval)
  (d : list (string * gmap string jval)) : list (string * gmap string jval) :=
  match d with
  | [] => []
  | (k', v) :: d' =>
      if String.eqb k' k then (k', f v) :: d' else (k', v) :: od_update k f d'
  end.

Definition new_month (m : string) : gmap string jval :=
  <["month" := JStr m]>
    (<["income" := JNum (Finite 0)]> (<["expense" := JNum (Finite 0)]> ∅)).

Definition monthly_step (monthly : list (string * gmap string jval))
  (row : string * string * option pyfloat) : list (string * gmap string jval) :=
  let '(m, t, s) := row in
  let monthly1 :=
    if od_mem m monthly then monthly
    else (monthly ++ [(m, new_month m)])%list in
  od_update m (fun e => <[t := json_of s]> e) monthly1.

Definition monthly_dict (st : store) : list (string * gmap string jval) :=
  fold_left monthly_step (month_type_sums (rows st)) [].

(** The entry of month [m] once all its rows have been stored. *)
Definition month_entry (l : list transaction) (m : string) : gmap string jval :=
  fill json_of (group_sum tx_type (in_month l m)) (new_month m).

Record statistics := mkStats {
  totals : gmap string (option pyfloat);
  categories : list (string * option pyfloat);
  daily : list (string * option pyfloat);
  monthly : list (gmap string jval)
}.

Definition get_statistics (st : store) (month : string) : statistics :=
  {| totals := totals_of (group_sum tx_type (where_like month (rows st)));
     categories := group_sum tx_category (where_expense (where_like month (rows st)));
     daily := group_sum tx_date (where_expense (where_like month (rows st)));
     monthly := map snd (monthly_dict st) |}.

End Stats.

(** ** The [csv] module: writer and reader of the default (excel) dialect *)

Module Csv.

Definition dquote : ascii := ascii_of_N 34.
Definition comma : ascii := ascii_of_N 44.
Definition CR : ascii := ascii_of_N 13.
Definition LF : ascii := ascii_of_N 10.

(** A field holding the delimiter, the quote character or a character of
    the line terminator is written quoted. *)
Definition special (c : ascii) : bool :=
  Ascii.eqb c comma || Ascii.eqb c dquote || Ascii.eqb c CR || Ascii.eqb c LF.

(** [doublequote]: a quote character inside a field is written twice. *)
Fixpoint escape (cs : list ascii) : list ascii :=
  match cs with
  | [] => []
  | c :: cs' =>
      if Ascii.eqb c dquote then dquote :: dquote :: escape cs'
      else c :: escape cs'
  end.

Definition render_field (f : string) : list ascii :=
  let cs := list_ascii_of_string f in
  if existsb special cs then (dquote :: escape cs ++ [dquote])%list else cs.

Fixpoint join_fields (fs : list string) : list ascii :=
  match fs with
  | [] => []
  | [f] => render_field f
  | f :: fs' => (render_field f ++ comma :: join_fields fs')%list
  end.

(** One record with its terminator; a record made of a single empty field
    is written as a pair of quotes. *)
Definition render_row (fs : list string) : list ascii :=
  match fs with
  | [EmptyString] => [dquote; dquote; CR; LF]
  | _ => (join_fields fs ++ [CR; LF])%list
  end.

(** [writer.writerow(row)] on the [StringIO] buffer [out]. *)
Definition writerow (row : list string) (out : string) : string :=
  out +:+ string_of_list_ascii (render_row row).

(** The reader, as a state machine over the characters of the document. *)
Inductive mode := StartRecord | StartField | InField | InQuoted | QuoteInQuoted | EatLF.

Record rstate := mkR {
  r_mode : mode;
  r_field : list ascii;          (* current field, reversed *)
  r_fields : list string;        (* fields of the current record, reversed *)
  r_records : list (list string) (* finished records, reversed *)
}.

Definition save_field (fld : list ascii) (flds : list string) : list string :=
  string_of_list_ascii (rev fld) :: flds.

Definition end_field (s : rstate) : rstate :=
  mkR StartField [] (save_field (r_field s) (r_fields s)) (r_records s).

Definition end_record (after : mode) (s : rstate) : rstate :=
  mkR after [] []
      (rev (save_field (r_field s) (r_fields s)) :: r_records s).

Definition after_eol (c : ascii) : mode :=
  if Ascii.eqb c CR then EatLF else StartRecord.

Definition is_eol (c : ascii) : bool := Ascii.eqb c CR || Ascii.eqb c LF.

Definition start_field (s : rstate) (c : ascii) : rstate :=
  if Ascii.eqb c dquote then mkR InQuoted [] (r_fields s) (r_records s)
  else if Ascii.eqb c comma then end_field s
  else if is_eol c then end_record (after_eol c) s
  else mkR InField [c] (r_fields s) (r_records s).

Definition start_record (s : rstate) (c : ascii) : rstate :=
  if is_eol c then mkR (after_eol c) [] [] ([] :: r_records s)
  else start_field s c.

Definition step (s : rstate) (c : ascii) : rstate :=
  match r_mode s with
  | StartRecord => start_record s c
  | EatLF =>
      if Ascii.eqb c LF then mkR StartRecord [] [] (r_records s)
      else start_record s c
  | StartField => start_field s c
  | InField =>
      if Ascii.eqb c comma then end_field s
      else if is_eol c then end_record (after_eol c) s
      else mkR InField (c :: r_field s) (r_fields s) (r_records s)
  | InQuoted =>
      if Ascii.eqb c dquote
      then mkR QuoteInQuoted (r_field s) (r_fields s) (r_records s)
      else mkR InQuoted (c :: r_field s) (r_fields s) (r_records s)
  | QuoteInQuoted =>
      if Ascii.eqb c dquote
      then mkR InQuoted (c :: r_field s) (r_fields s) (r_records s)
      else if Ascii.eqb c comma then end_field s
      else if is_eol c then end_record (after_eol c) s
      else mkR InField (c :: r_field s) (r_fields s) (r_records s)
  end.

Definition finish (s : rstate) : list (list string) :=
  match r_mode s with
  | StartRecord | EatLF => rev (r_records s)
  | _ => rev (r_records (end_record StartRecord s))
  end.

Definition init : rstate := mkR StartRecord [] [] [].

(** [list(csv.reader(...))] on the whole document. *)
Definition reader (text : string) : list (list string) :=
  finish (fold_left step (list_ascii_of_string text) init).

(** Vocabulary for the round trip. *)
Definition run (cs : list ascii) (s : rstate) : rstate := fold_left step cs s.

Definition write_rows (rws : list (list string)) (out : string) : string :=
  fold_left (fun out row => writerow row out) rws out.

Definition at_start (m : mode) : Prop := m = StartRecord \/ m = StartField.

(** The reader's state once the characters of a field have been read:
    the field is pending, to be closed by a delimiter or a terminator. *)
Inductive pending (m : mode) (f : string) (flds : list string)
  (recs : list (list string)) : rstate -> Prop :=
| pending_empty :
    f = EmptyString -> pending m f flds recs (mkR m [] flds recs)
| pending_plain fld :
    string_of_list_ascii (rev fld) = f -> f <> EmptyString ->
    pending m f flds recs (mkR InField fld flds recs)
| pending_quoted fld :
    string_of_list_ascii (rev fld) = f ->
    pending m f flds recs (mkR QuoteInQuoted fld flds recs).

End Csv.

(** ** CSV exporter: [download_csv] *)

Module Exporter.

Import Text Sql Csv.

Definition digit (n : Z) : ascii := ascii_of_N (48 + Z.to_N n).

(** Nearest integer to a non-negative rational, ties to even. *)
Definition round_half_even (q : Q) : Z :=
  let n := Qnum q in
  let d := Zpos (Qden q) in
  let f := (n / d)%Z in
  let r := (n mod d)%Z in
  if (2 * r <? d)%Z then f
  else if (d <? 2 * r)%Z then (f + 1)%Z
  else if Z.even f then f else (f + 1)%Z.

(** A rational with two digits after the point. *)
Definition fixed_2 (q : Q) : string :=
  let c := round_half_even (Qabs q * 100) in
  (if (Qnum q <? 0)%Z then "-" else EmptyString)
  +:+ str_of_Z (c / 100)
  +:+ String "." (String (digit (c mod 100 / 10))
                    (String (digit (c mod 100 mod 10)) EmptyString)).

(** [f'{x:.2f}'] *)
Definition format_2f (x : pyfloat) : string :=
  match x with
  | Finite q => fixed_2 q
  | PlusInf => "inf"
  | MinusInf => "-inf"
  | NaN => "nan"
  end.

Record csv_args := mkArgs {
  arg_month : option string;
  arg_single : option string;
  arg_order : option string
}.

(** [request.args.get(name, default)] *)
Definition get_arg (o : option string) (default : string) : string :=
  match o with Some s => s | None => default end.

Definition single_flag (a : csv_args) : bool :=
  let s := lower (get_arg (arg_single a) "0") in
  String.eqb s "1" || String.eqb s "true" || String.eqb s "yes".

Definition order_clause (a : csv_args) : direction :=
  if String.eqb (lower (get_arg (arg_order a) "asc")) "desc" then DESC else ASC.

(** [if month:] — an absent or empty [month] selects the unfiltered queries. *)
Definition month_filter (a : csv_args) : option string :=
  match arg_month a with
  | Some EmptyString | None => None
  | Some m => Some m
  end.

Definition matching (st : store) (a : csv_args) : list transaction :=
  match month_filter a with
  | Some m => where_like m (rows st)
  | None => rows st
  end.

(** [c.execute(tx_query, tx_params); transactions = c.fetchall()] *)
Definition transactions (st : store) (a : csv_args) : list transaction :=
  order_by_date (order_clause a) (matching st a).

(** [row[1] or 0.0] *)
Definition or_zero (v : option pyfloat) : pyfloat :=
  match v with
  | None => Finite 0
  | Some x => if Float.is_zero x then Finite 0 else x
  end.

Definition csv_totals (st : store) (a : csv_args) : gmap string pyfloat :=
  fold_left (fun totals row => <[fst row := or_zero (snd row)]> totals)
            (group_sum tx_type (matching st a))
            (<["income" := Finite 0]> (<["expense" := Finite 0]> ∅)).

(** [totals.get(key, 0.0)] *)
Definition get_total (totals : gmap string pyfloat) (key : string) : pyfloat :=
  match totals !! key with Some x => x | None => Finite 0 end.

Definition balance (st : store) (a : csv_args) : pyfloat :=
  Float.sub (get_total (csv_totals st a) "income")
            (get_total (csv_totals st a) "expense").

Definition summary_line (st : store) (a : csv_args) : string :=
  "Total Income: " +:+ format_2f (get_total (csv_totals st a) "income")
  +:+ " | Total Expense: " +:+ format_2f (get_total (csv_totals st a) "expense")
  +:+ " | Balance: " +:+ format_2f (balance st a).

Definition single_line (tx : transaction) : string :=
  "ID:" +:+ str_of_Z (tx_id tx) +:+ " | " +:+ tx_description tx
  +:+ " | " +:+ capitalize (tx_type tx) +:+ " " +:+ format_2f (tx_amount tx)
  +:+ " | Category: " +:+ tx_category tx +:+ " | Date: " +:+ tx_date tx.

Definition header : list string :=
  ["ID"; "Description"; "Amount"; "Type"; "Category"; "Date";
   "Total Income"; "Total Expense"; "Balance"].

Definition summary_row (st : store) (a : csv_args) : list string :=
  [EmptyString; EmptyString; EmptyString; EmptyString; EmptyString; EmptyString;
   format_2f (get_total (csv_totals st a) "income");
   format_2f (get_total (csv_totals st a) "expense");
   format_2f (balance st a)].

Definition tx_row (tx : transaction) : list string :=
  [str_of_Z (tx_id tx); tx_description tx; format_2f (tx_amount tx);
   tx_type tx; tx_category tx; tx_date tx;
   EmptyString; EmptyString; EmptyString].

Definition no_tx_row (st : store) (a : csv_args) : list string :=
  [EmptyString; "No transactions"; EmptyString; EmptyString; EmptyString;
   EmptyString;
   format_2f (get_total (csv_totals st a) "income");
   format_2f (get_total (csv_totals st a) "expense");
   format_2f (balance st a)].

Definition filename (a : csv_args) : string :=
  match month_filter a with
  | Some m => "transactions_" +:+ m +:+ ".csv"
  | None => "transactions_all.csv"
  end.

Record csv_response := mkResp {
  csv_data : string;
  attachment : string
}.

Definition download_csv (st : store) (a : csv_args) : csv_response :=
  let txs := transactions st a in
  let output := EmptyString in
  let output :=
    if single_flag a then
      let output := writerow ["Data"] output in
      let output := writerow [summary_line st a] output in
      let output := writerow [EmptyString] output in
      match txs with
      | _ :: _ => fold_left (fun out tx => writerow [single_line tx] out) txs output
      | [] => writerow ["No transactions"] output
      end
    else
      let output := writerow header output in
      let output := writerow (summary_row st a) output in
      match txs with
      | _ :: _ => fold_left (fun out tx => writerow (tx_row tx) out) txs output
      | [] => writerow (no_tx_row st a) output
      end in
  {| csv_data := output; attachment := filename a |}.

(** The records [download_csv] hands to the writer, in order. *)
Definition csv_rows (st : store) (a : csv_args) : list (list string) :=
  if single_flag a then
    ["Data"] :: [summary_line st a] :: [EmptyString] ::
    match transactions st a with
    | [] => [["No transactions"]]
    | txs => map (fun tx => [single_line tx]) txs
    end
  else
    header :: summary_row st a ::
    match transactions st a with
    | [] => [no_tx_row st a]
    | txs => map tx_row txs
    end.

(** A rendering with exactly two digits after the decimal point. *)
Definition two_decimals (s : string) : Prop :=
  exists pre a b,
    s = pre +:+ String "." (String (digit a) (String (digit b) EmptyString))
    /\ (0 <= a <= 9)%Z /\ (0 <= b <= 9)%Z.

(** Two tuples are the same when their fields are equal, amounts as numbers. *)
Definition same_tuple (x y : transaction) : Prop :=
  tx_id x = tx_id y /\ tx_description x = tx_description y
  /\ Float.same (tx_amount x) (tx_amount y) /\ tx_type x = tx_type y
  /\ tx_category x = tx_category y /\ tx_date x = tx_date y.

End Exporter.

(** ** Transaction endpoints: [get_transactions], [add_transaction],
       [delete_transaction] *)

(** The value of [request.get_json(force=True, silent=True)]: a parsed JSON
    document, or [PNone] when the body is missing or does not parse.
    Python's parser reads [NaN], [Infinity] and [-Infinity] as floats, and
    an escape such as [\ud800] as a [str] that has no UTF-8 encoding
    ([PSurrogate]; such a string is not empty and is not a number). *)
#[local] Set Warnings "-register-all".
Inductive pyval :=
| PNone
| PBool (b : bool)
| PInt (z : Z)
| PFloat (x : pyfloat)
| PStr (s : string)
| PSurrogate                     (* a [str] holding a lone surrogate *)
| PList (l : list pyval)
| PDict (items : list (string * pyval)).

Inductive exn :=
| AttributeError
| TypeError
| ValueError
| OverflowError
| UnicodeEncodeError             (* a subclass of [ValueError] *)
| BindError                      (* sqlite3: parameter of an unsupported type *)
| IntegrityError (msg : string).

Inductive result (A : Type) :=
| Ok (a : A)
| Exc (e : exn).
Arguments Ok {A} a.
Arguments Exc {A} e.

(** Exceptions propagate through a sequence of calls. *)
#[export] Instance result_ret : MRet result := fun A a => Ok a.
#[export] Instance result_bind : MBind result := fun A B f r =>
  match r with
  | Ok a => f a
  | Exc e => Exc e
  end.

(** What a handler hands back to Flask: a JSON object with a status code,
    or an exception it did not catch (Flask answers 500). *)
Inductive outcome :=
| Respond (status : Z) (body : list (string * pyval))
| Raise (e : exn).

Module Api.

Import Text Sql.

Definition truthy (v : pyval) : bool :=
  match v with
  | PNone => false
  | PBool b => b
  | PInt z => negb (z =? 0)%Z
  | PFloat x => negb (Float.is_zero x)
  | PStr s => negb (String.eqb s EmptyString)
  | PSurrogate => true
  | PList l => match l with [] => false | _ :: _ => true end
  | PDict d => match d with [] => false | _ :: _ => true end
  end.

Definition is_none (v : pyval) : bool :=
  match v with PNone => true | _ => false end.

(** [d.get(key)] *)
Fixpoint dict_get (d : list (string * pyval)) (key : string) : pyval :=
  match d with
  | [] => PNone
  | (k, v) :: d' => if String.eqb k key then v else dict_get d' key
  end.

(** [a or b] *)
Definition py_or (a b : pyval) : pyval := if truthy a then a else b.

Definition bad_request (error : string) : outcome :=
  Respond 400 [("success", PBool false); ("error", PStr error)].

Definition int64 (z : Z) : bool := ((- 2 ^ 63 <=? z) && (z <? 2 ^ 63))%Z.

(** Largest magnitude an [int] may have for [float(int)] to succeed. *)
Definition float_int_bound : Z := (2 ^ 1024 - 2 ^ 970)%Z.

Inductive sqlval :=
| SNull
| SInteger (z : Z)
| SReal (x : pyfloat)
| SText (s : string).

(** The [sqlite3] adapter for a statement parameter.  A NaN is bound as
    NULL; a [str] is encoded to UTF-8, which a lone surrogate prevents. *)
Definition adapt (v : pyval) : result sqlval :=
  match v with
  | PNone => Ok SNull
  | PBool b => Ok (SInteger (if b then 1 else 0))
  | PInt z => if int64 z then Ok (SInteger z) else Exc OverflowError
  | PFloat x => Ok (if Float.is_nan x then SNull else SReal x)
  | PStr s => Ok (SText s)
  | PSurrogate => Exc UnicodeEncodeError
  | PList _ | PDict _ => Exc BindError
  end.

Fixpoint max_rowid (l : list transaction) : Z :=
  match l with
  | [] => 0
  | t :: l' => Z.max (tx_id t) (max_rowid l')
  end.

(** AUTOINCREMENT: one more than the largest rowid ever used. *)
Definition next_rowid (st : store) : Z := (Z.max (seq st) (max_rowid (rows st)) + 1)%Z.

(** A parameter the [sqlite3] adapter binds without raising. *)
Definition adaptable (v : pyval) : bool :=
  match adapt v with Ok _ => true | Exc _ => false end.

(** A parameter the [sqlite3] adapter binds to a value, that is, without
    raising and not to NULL. *)
Definition bindable (v : pyval) : bool :=
  match adapt v with Ok SNull => false | Ok _ => true | Exc _ => false end.

(** [jsonify({'id': transaction_id, 'success': True})] *)
Definition created (id : Z) : outcome :=
  Respond 200 [("id", PInt id); ("success", PBool true)].

Section Handlers.

(** Two functions of the Python runtime and of SQLite that the handlers
    call on text: [float(s)] for a [str] ([None] when it raises
    [ValueError]) and the text SQLite stores for a REAL bound to a TEXT
    column. *)
Variable float_of_str : string -> option pyfloat.
Variable real_to_text : pyfloat -> string.

(** [float(v)] *)
Definition py_float (v : pyval) : result pyfloat :=
  match v with
  | PNone => Exc TypeError
  | PBool b => Ok (Finite (if b then 1 else 0))
  | PInt z =>
      if (Z.abs z <? float_int_bound)%Z then Ok (Finite (inject_Z z))
      else Exc OverflowError
  | PFloat x => Ok x
  | PStr s =>
      match float_of_str s with Some x => Ok x | None => Exc ValueError end
  | PSurrogate => Exc ValueError
  | PList _ | PDict _ => Exc TypeError
  end.

(** A bound value entering a [TEXT NOT NULL] column. *)
Definition text_column (column : string) (v : sqlval) : result string :=
  match v with
  | SNull =>
      Exc (IntegrityError ("NOT NULL constraint failed: transactions." +:+ column))
  | SInteger z => Ok (str_of_Z z)
  | SReal x => Ok (real_to_text x)
  | SText s => Ok s
  end.

(** The float entering the [REAL NOT NULL] column [amount]: a NaN has
    been bound as NULL. *)
Definition amount_column (amount : pyfloat) : result pyfloat :=
  if Float.is_nan amount
  then Exc (IntegrityError "NOT NULL constraint failed: transactions.amount")
  else Ok amount.

(** [c.execute('INSERT INTO transactions (description, amount, type,
    category, date) VALUES (?, ?, ?, ?, ?)', ...); conn.commit();
    c.lastrowid].  Every parameter is bound before the row is built (a
    float always binds), and the NOT NULL constraints are then checked in
    the order of the columns. *)
Definition sql_insert (st : store) (description : pyval) (amount : pyfloat)
  (ttype category date : pyval) : result (store * Z) :=
  d ← adapt description;
  t ← adapt ttype;
  c ← adapt category;
  dt ← adapt date;
  d' ← text_column "description" d;
  a' ← amount_column amount;
  t' ← text_column "type" t;
  c' ← text_column "category" c;
  dt' ← text_column "date" dt;
  let id := next_rowid st in
  mret (mkStore (rows st ++ [mkTx id d' a' t' c' dt'])%list id, id).

Definition add_transaction (st : store) (data : pyval) : store * outcome :=
  if negb (truthy data) then (st, bad_request "Invalid JSON payload")
  else
    match data with
    | PDict d =>
        let description := dict_get d "description" in
        let amount := dict_get d "amount" in
        let ttype := dict_get d "type" in
        let category := dict_get d "category" in
        let date := dict_get d "date" in
        if negb (truthy description) || is_none amount
           || negb (truthy ttype) || negb (truthy date)
        then (st, bad_request "Missing required fields")
        else
          match py_float amount with
          | Exc ValueError | Exc TypeError => (st, bad_request "Invalid amount")
          | Exc e => (st, Raise e)
          | Ok amount =>
              match sql_insert st description amount ttype
                               (py_or category (PStr EmptyString)) date with
              | Ok (st', transaction_id) =>
                  (st', Respond 200 [("id", PInt transaction_id);
                                     ("success", PBool true)])
              | Exc (IntegrityError msg) => (st, bad_request msg)
              | Exc e => (st, Raise e)
              end
          end
    | _ => (st, Raise AttributeError)   (* [data.get] on a non-dict *)
    end.

(** The text a truthy, bindable value leaves in a TEXT column. *)
Definition column_text (v : pyval) : string :=
  match v with
  | PBool b => if b then "1" else "0"
  | PInt z => str_of_Z z
  | PFloat x => real_to_text x
  | PStr s => s
  | _ => EmptyString
  end.

(** The checks of [add_transaction], as the request sees them. *)
Definition missing_required (d : list (string * pyval)) : Prop :=
  truthy (dict_get d "description") = false
  \/ dict_get d "amount" = PNone
  \/ truthy (dict_get d "type") = false
  \/ truthy (dict_get d "date") = false.

Definition not_a_number (v : pyval) : Prop :=
  py_float v = Exc ValueError \/ py_float v = Exc TypeError.

Definition integrity_failure (st : store) (d : list (string * pyval)) : Prop :=
  exists a msg,
    py_float (dict_get d "amount") = Ok a
    /\ sql_insert st (dict_get d "description") a (dict_get d "type")
                  (py_or (dict_get d "category") (PStr EmptyString))
                  (dict_get d "date")
       = Exc (IntegrityError msg).

Definition refused (st : store) (data : pyval) : Prop :=
  truthy data = false
  \/ exists d, data = PDict d
               /\ (missing_required d \/ not_a_number (dict_get d "amount")
                   \/ integrity_failure st d).

(** Requests on which every step of the handler is defined: the body is
    falsy or an object, the text fields are values the adapter binds
    without raising, and the amount is not an integer beyond the range of
    [float]. *)
Definition well_typed (data : pyval) : Prop :=
  truthy data = false
  \/ exists d, data = PDict d
               /\ adaptable (dict_get d "description") = true
               /\ adaptable (dict_get d "type") = true
               /\ adaptable (py_or (dict_get d "category") (PStr EmptyString)) = true
               /\ adaptable (dict_get d "date") = true
               /\ py_float (dict_get d "amount") <> Exc OverflowError.

End Handlers.

(** [c.execute('DELETE FROM transactions WHERE id = ?', (id,))] *)
Definition delete_transaction (st : store) (id : Z) : store * outcome :=
  match adapt (PInt id) with
  | Ok _ =>
      (mkStore (List.filter (fun t => negb (tx_id t =? id)%Z) (rows st)) (seq st),
       Respond 200 [("success", PBool true)])
  | Exc e => (st, Raise e)
  end.

(** [SELECT * FROM transactions ORDER BY date DESC] *)
Definition get_transactions (st : store) : list transaction :=
  order_by_date DESC (rows st).

End Api.

(** ** Example data *)

Module Examples.

Import Exporter.

(** A table with two months, the second without income. *)
Definition two_months : store :=
  mkStore [mkTx 1 "Coffee" (Finite (9 # 2)) "expense" "Food" "2024-03-05";
           mkTx 2 "Salary" (Finite 3000) "income" EmptyString "2024-03-01";
           mkTx 3 "Rent" (Finite 800) "expense" "Home" "2024-04-01"] 3.

Definition march_table : store :=
  mkStore [mkTx 1 "Coffee, large" (Finite (9 # 2)) "expense" "Food" "2024-03-05";
           mkTx 2 "Salary" (Finite 3000) "income" EmptyString "2024-03-01"] 2.

(** Two incomes of March whose sum is not a number. *)
Definition windfalls : store :=
  mkStore [mkTx 1 "Windfall" PlusInf "income" EmptyString "2024-03-01";
           mkTx 2 "Windfall" MinusInf "income" EmptyString "2024-03-01"] 2.

Definition march_single : csv_args := mkArgs (Some "2024-03") (Some "1") None.

Definition march_multi : csv_args := mkArgs (Some "2024-03") None None.

(** Instances of the two runtime functions for the examples: [float] on a
    run of decimal digits, and a two-decimal rendering; no example depends
    on their value elsewhere. *)
Definition digits_float (s : string) : option pyfloat :=
  match NilZero.uint_of_string s with
  | Some u => Some (Finite (inject_Z (Z.of_uint u)))
  | None => None
  end.

Definition two_decimal_text (x : pyfloat) : string := format_2f x.

(** A request without category, and one without date. *)
Definition coffee_request : pyval :=
  PDict [("description", PStr "Coffee"); ("amount", PStr "4");
         ("type", PStr "expense"); ("category", PInt 0);
         ("date", PStr "2024-03-05")].

Definition undated_request : pyval :=
  PDict [("description", PStr "Coffee"); ("amount", PInt 4);
         ("type", PStr "expense")].

(** Two incomes of March whose amounts are the two infinities, as
    [json.loads] reads [Infinity] and [-Infinity], and a request whose
    amount is NaN. *)
Definition infinite_income (x : pyfloat) : pyval :=
  PDict [("description", PStr "Windfall"); ("amount", PFloat x);
         ("type", PStr "income"); ("date", PStr "2024-03-01")].

Definition nan_request : pyval :=
  PDict [("description", PStr "Coffee"); ("amount", PFloat NaN);
         ("type", PStr "expense"); ("date", PStr "2024-03-05")].

End Examples.

(** ** Vocabulary of the store invariants and of the sums *)

Module Invariant.

Import Sql Exporter Api.

(** Row ids are distinct, positive and never above the AUTOINCREMENT
    counter. *)
Definition ids_ok (st : store) : Prop :=
  List.NoDup (map tx_id (rows st))
  /\ forall t, In t (rows st) -> (0 < tx_id t <= seq st)%Z.

(** The stores the application can be in: the empty table of [init_db],
    then any sequence of POST and DELETE requests. *)
Inductive reachable (float_of_str : string -> option pyfloat)
  (real_to_text : pyfloat -> string) : store -> Prop :=
| reach_init : reachable float_of_str real_to_text empty_store
| reach_add st data :
    reachable float_of_str real_to_text st ->
    reachable float_of_str real_to_text
              (fst (add_transaction float_of_str real_to_text st data))
| reach_delete st id :
    reachable float_of_str real_to_text st ->
    reachable float_of_str real_to_text (fst (delete_transaction st id)).

(** Text made of ASCII characters only, on which [capitalize] is Python's. *)
Definition is_ascii (s : string) : bool :=
  forallb (fun c => (N_of_ascii c <? 128)%N) (list_ascii_of_string s).

(** The transactions of a table that have type [ty]. *)
Definition of_type (ty : string) (l : list transaction) : list transaction :=
  List.filter (fun t => String.eqb (tx_type t) ty) l.

(** Number of leading records of an export that are not transactions. *)
Definition preamble (a : csv_args) : nat := if single_flag a then 3 else 2.

End Invariant.

(** * Properties *)

(** ** Text *)

Module TextFacts.

Import Text.

Lemma compare_refl (s : string) : String.compare s s = Eq.
Proof.
  induction s as [|c s IH]; simpl; [reflexivity|].
  unfold Ascii.compare. rewrite N.compare_refl. exact IH.
Qed.

Lemma compare_eq (a b : string) : String.compare a b = Eq <-> a = b.
Proof.
  split; [apply String.compare_eq_iff | intros ->; apply compare_refl].
Qed.

Lemma compare_gt_lt (a b : string) : String.compare a b = Gt -> str_lt b a.
Proof.
  unfold str_lt. intros H. rewrite String.compare_antisym, H. reflexivity.
Qed.

Lemma str_lt_leb (a b : string) : str_lt a b -> String.leb a b = true.
Proof. unfold str_lt, String.leb. intros ->. reflexivity. Qed.

Lemma str_lt_irrefl (a : string) : ~ str_lt a a.
Proof. unfold str_lt. rewrite compare_refl. discriminate. Qed.

Lemma leb_trans (a b c : string) :
  String.leb a b = true -> String.leb b c = true -> String.leb a c = true.
Proof.
  intros H1 H2.
  assert (H : String.le a c).
  { transitivity b; unfold String.le; [rewrite H1 | rewrite H2]; exact I. }
  unfold String.le in H. destruct (String.leb a c); [reflexivity | destruct H].
Qed.

Lemma str_lt_trans (a b c : string) : str_lt a b -> str_lt b c -> str_lt a c.
Proof.
  intros H1 H2. unfold str_lt.
  destruct (String.compare a c) eqn:E; [| reflexivity |].
  - apply compare_eq in E. subst c. exfalso.
    unfold str_lt in *. rewrite String.compare_antisym, H1 in H2. discriminate.
  - exfalso.
    assert (L : String.leb a c = true)
      by (eapply leb_trans; apply str_lt_leb; eassumption).
    unfold String.leb in L. rewrite E in L. discriminate.
Qed.

Lemma leb_refl (a : string) : String.leb a a = true.
Proof. unfold String.leb. rewrite compare_refl. reflexivity. Qed.

(** The characters that [lower] sends to a given lower-case letter are the
    letter and its capital. *)
Lemma lower_char_is (c l : ascii) :
  In l ["d"; "e"; "s"; "c"]%char ->
  lower_char c = l <-> c = l \/ c = upper_char l.
Proof.
  intros [<-|[<-|[<-|[<-|[]]]]];
    destruct c as [[] [] [] [] [] [] [] []]; vm_compute;
    (split;
     [ intros H; first [discriminate H | left; reflexivity | right; reflexivity]
     | intros [H|H]; first [discriminate H | reflexivity] ]).
Qed.

(** Pattern matching: [%] alone matches everything. *)
Lemma like_percent (s : string) : like "%" s = true.
Proof.
  induction s as [|c s IH]; [reflexivity|].
  change (like "%" (String c s)) with (false || like "%" s). exact IH.
Qed.

Lemma lower_char_cases (c : ascii) :
  lower_char c = c \/ (is_upper c = true /\ is_lower (lower_char c) = true).
Proof.
  destruct c as [[] [] [] [] [] [] [] []];
    first [left; reflexivity | right; split; reflexivity].
Qed.

Lemma plain_char_eq (p c : ascii) :
  plain_char p = true -> like_char_eq p c = Ascii.eqb p c.
Proof.
  unfold plain_char, like_char_eq. intros H.
  destruct (is_upper p) eqn:Hu; [rewrite andb_false_r in H; discriminate H|].
  destruct (is_lower p) eqn:Hl; [rewrite andb_false_r in H; discriminate H|].
  unfold lower_char at 1. rewrite Hu.
  destruct (lower_char_cases c) as [->|[Hc Hc']]; [reflexivity|].
  destruct (Ascii.eqb_spec p (lower_char c)) as [E|_]; [congruence|].
  destruct (Ascii.eqb_spec p c) as [E|_]; [congruence | reflexivity].
Qed.

Lemma plain_char_not_wild (p : ascii) :
  plain_char p = true -> Ascii.eqb p "%" = false /\ Ascii.eqb p "_" = false.
Proof.
  unfold plain_char. destruct (Ascii.eqb p "%"), (Ascii.eqb p "_"); simpl;
    intros H; try discriminate H; split; reflexivity.
Qed.

(** For a month without wildcards or letters, [date LIKE 'month%'] is the
    test that the date starts with the month. *)
Lemma like_prefix (m d : string) :
  plain m = true -> like (m +:+ "%") d = String.prefix m d.
Proof.
  revert d. induction m as [|p m IH]; intros d Hp.
  - change (EmptyString +:+ "%") with "%". rewrite like_percent.
    destruct d; reflexivity.
  - simpl in Hp. apply andb_prop in Hp as [Hc Hm].
    change (String p m +:+ "%") with (String p (m +:+ "%")).
    destruct (plain_char_not_wild p Hc) as [E1 E2].
    simpl. rewrite E1, E2.
    destruct d as [|c d]; [reflexivity|].
    rewrite (plain_char_eq p c Hc), (IH d Hm). simpl String.prefix.
    destruct (Ascii.eqb_spec p c) as [->|Hne].
    + destruct (ascii_dec c c); [reflexivity | congruence].
    + destruct (ascii_dec p c); [congruence | reflexivity].
Qed.

End TextFacts.

(** ** Queries *)

Module SqlFacts.

Import Text Sql TextFacts.

(** *** Distinct sorted keys *)

Lemma insert_uniq_In (k x : string) (l : list string) :
  In x (insert_uniq k l) <-> x = k \/ In x l.
Proof.
  induction l as [|h t IH]; simpl.
  - intuition.
  - destruct (String.compare k h) eqn:E; simpl.
    + apply compare_eq in E. subst h. intuition.
    + intuition.
    + rewrite IH. intuition.
Qed.

Lemma sort_uniq_In (x : string) (l : list string) :
  In x (sort_uniq l) <-> In x l.
Proof.
  induction l as [|h t IH]; simpl; [reflexivity|].
  rewrite insert_uniq_In, IH. intuition.
Qed.

Lemma insert_uniq_sorted (k : string) (l : list string) :
  StronglySorted str_lt l -> StronglySorted str_lt (insert_uniq k l).
Proof.
  induction 1 as [|h t Hs IH Hall]; simpl.
  - repeat constructor.
  - destruct (String.compare k h) eqn:E.
    + constructor; assumption.
    + constructor; [constructor; assumption|].
      constructor; [exact E|].
      eapply List.Forall_impl; [|exact Hall].
      intros a Ha. eapply str_lt_trans; [exact E | exact Ha].
    + constructor; [exact IH|].
      apply List.Forall_forall. intros x Hx. apply insert_uniq_In in Hx as [->|Hx].
      * apply compare_gt_lt, E.
      * rewrite List.Forall_forall in Hall. apply Hall, Hx.
Qed.

Lemma sort_uniq_sorted (l : list string) : StronglySorted str_lt (sort_uniq l).
Proof.
  induction l as [|h t IH]; simpl; [constructor | apply insert_uniq_sorted, IH].
Qed.

Lemma sorted_NoDup (l : list string) : StronglySorted str_lt l -> List.NoDup l.
Proof.
  induction 1 as [|h t Hs IH Hall]; constructor; [|exact IH].
  intros Hin. rewrite List.Forall_forall in Hall.
  exact (str_lt_irrefl h (Hall h Hin)).
Qed.

Lemma sort_uniq_NoDup (l : list string) : List.NoDup (sort_uniq l).
Proof. apply sorted_NoDup, sort_uniq_sorted. Qed.

Lemma sort_uniq_nil (l : list string) : sort_uniq l = [] -> l = [].
Proof.
  destruct l as [|h t]; [reflexivity|]. intros E.
  assert (H : In h (sort_uniq (h :: t))) by (apply sort_uniq_In; left; reflexivity).
  rewrite E in H. destruct H.
Qed.

(** *** Grouping *)

Lemma group_sum_keys (key : transaction -> string) (l : list transaction) :
  map fst (group_sum key l) = sort_uniq (map key l).
Proof.
  unfold group_sum. rewrite map_map. simpl. apply map_id.
Qed.

Lemma group_sum_key_In (key : transaction -> string) (l : list transaction) (k : string) :
  In k (map fst (group_sum key l)) <-> exists t, In t l /\ key t = k.
Proof.
  rewrite group_sum_keys, sort_uniq_In, in_map_iff.
  split; intros (t & H1 & H2); exists t; auto.
Qed.

Lemma group_sum_In (key : transaction -> string) (l : list transaction)
  (k : string) (q : option pyfloat) :
  In (k, q) (group_sum key l) ->
  q = sum_amounts (List.filter (fun t => String.eqb (key t) k) l).
Proof.
  unfold group_sum. intros H. apply in_map_iff in H as (k' & E & _).
  inversion E. reflexivity.
Qed.

Lemma group_sum_nil (key : transaction -> string) (l : list transaction) :
  l = [] <-> group_sum key l = [].
Proof.
  split; [intros ->; reflexivity|].
  unfold group_sum. intros H. apply map_eq_nil in H.
  apply sort_uniq_nil in H. destruct l; [reflexivity | discriminate H].
Qed.

(** *** Ordering *)

Lemma date_le_total (d : direction) (a b : transaction) :
  date_le d a b = true \/ date_le d b a = true.
Proof. destruct d; apply String.leb_total. Qed.

Lemma date_le_trans (d : direction) (a b c : transaction) :
  date_le d a b = true -> date_le d b c = true -> date_le d a c = true.
Proof.
  destruct d; simpl; intros H1 H2; eapply leb_trans; eassumption.
Qed.

Lemma insert_by_perm (le : transaction -> transaction -> bool)
  (x : transaction) (l : list transaction) :
  Permutation (x :: l) (insert_by le x l).
Proof.
  induction l as [|h t IH]; simpl; [reflexivity|].
  destruct (le x h); [reflexivity|].
  rewrite perm_swap. constructor. exact IH.
Qed.

Lemma order_by_date_perm (d : direction) (l : list transaction) :
  Permutation l (order_by_date d l).
Proof.
  induction l as [|h t IH]; simpl; [constructor|].
  rewrite <- insert_by_perm. constructor. exact IH.
Qed.

Lemma insert_by_sorted (d : direction) (x : transaction) (l : list transaction) :
  StronglySorted (date_ord d) l ->
  StronglySorted (date_ord d) (insert_by (date_le d) x l).
Proof.
  induction 1 as [|h t Hs IH Hall]; simpl.
  - repeat constructor.
  - destruct (date_le d x h) eqn:E.
    + constructor; [constructor; assumption|].
      constructor; [exact E|].
      eapply List.Forall_impl; [|exact Hall].
      intros a Ha. eapply date_le_trans; eassumption.
    + constructor; [exact IH|].
      apply List.Forall_forall. intros y Hy.
      apply (Permutation_in _ (Permutation_sym (insert_by_perm _ x t))) in Hy.
      destruct Hy as [<-|Hy].
      * destruct (date_le_total d x h) as [H|H]; [congruence | exact H].
      * rewrite List.Forall_forall in Hall. apply Hall, Hy.
Qed.

Lemma order_by_date_sorted (d : direction) (l : list transaction) :
  StronglySorted (date_ord d) (order_by_date d l).
Proof.
  induction l as [|h t IH]; simpl; [constructor | apply insert_by_sorted, IH].
Qed.

Lemma order_by_date_nil (d : direction) (l : list transaction) :
  order_by_date d l = [] <-> l = [].
Proof.
  split; [|intros ->; reflexivity].
  intros E. pose proof (order_by_date_perm d l) as P. rewrite E in P.
  apply Permutation_sym, Permutation_nil in P. exact P.
Qed.

(** *** Filters *)

Lemma where_like_empty_month (l : list transaction) : where_like EmptyString l = l.
Proof.
  unfold where_like. change (EmptyString +:+ "%") with "%".
  induction l as [|h t IH]; simpl; [reflexivity|].
  rewrite like_percent. f_equal. exact IH.
Qed.

Lemma where_like_prefix (m : string) (l : list transaction) :
  plain m = true ->
  where_like m l = List.filter (fun t => String.prefix m (tx_date t)) l.
Proof.
  intros Hm. unfold where_like. apply filter_ext. intros t. apply like_prefix, Hm.
Qed.

End SqlFacts.

(** ** Dictionaries filled from query results *)

Module DictFacts.

Import Dict.

Section Fill.

Context {V : Type} (g : option pyfloat -> V).

Lemma fill_absent (res : list (string * option pyfloat)) (init : gmap string V) (k : string) :
  ~ In k (map fst res) -> fill g res init !! k = init !! k.
Proof.
  revert init. induction res as [|[k' q] res IH]; intros init Hk; [reflexivity|].
  simpl in *. unfold fill in *. simpl. rewrite IH by tauto.
  apply lookup_insert_ne. intros ->. tauto.
Qed.

Lemma fill_present (res : list (string * option pyfloat)) (init : gmap string V)
  (k : string) (q : option pyfloat) :
  List.NoDup (map fst res) -> In (k, q) res -> fill g res init !! k = Some (g q).
Proof.
  revert init. induction res as [|[k' q'] res IH]; intros init Hnd Hin; [destruct Hin|].
  simpl in Hnd. inversion Hnd as [|? ? Hnot Hnd']; subst.
  destruct Hin as [E|Hin].
  - inversion E; subst. unfold fill. simpl.
    fold (fill g res (<[k := g q]> init)). rewrite fill_absent by exact Hnot.
    apply lookup_insert_eq.
  - unfold fill in *. simpl. apply IH; assumption.
Qed.

Lemma fill_keeps (res : list (string * option pyfloat)) (init : gmap string V) (k : string) :
  is_Some (init !! k) -> is_Some (fill g res init !! k).
Proof.
  revert init. induction res as [|[k' q'] res IH]; intros init H; [exact H|].
  unfold fill in *. simpl. apply IH.
  destruct (decide (k' = k)) as [->|Hne].
  - rewrite lookup_insert_eq. eauto.
  - rewrite lookup_insert_ne by exact Hne. exact H.
Qed.

End Fill.

Lemma fill_fmap {V W : Type} (g : option pyfloat -> V) (h : V -> W)
  (res : list (string * option pyfloat)) (init : gmap string V) :
  fill (fun q => h (g q)) res (h <$> init) = h <$> fill g res init.
Proof.
  revert init. induction res as [|[k q] res IH]; intros init; [reflexivity|].
  unfold fill in *. simpl. rewrite <- IH. f_equal.
  symmetry. apply fmap_insert.
Qed.

End DictFacts.

(** ** Statistics *)

Module StatsFacts.

Import Text Sql Dict Stats TextFacts SqlFacts DictFacts.

Lemma totals_of_fill (res : list (string * option pyfloat)) :
  totals_of res
  = fill (fun q => q) res
         (<["income" := Some (Finite 0)]> (<["expense" := Some (Finite 0)]> ∅)).
Proof. reflexivity. Qed.

(** *** The [monthly] dict *)

Lemma od_mem_false (k : string) (d : list (string * gmap string jval)) :
  od_mem k d = false <-> ~ In k (map fst d).
Proof.
  induction d as [|[k' v] d IH]; simpl; [tauto|].
  destruct (String.eqb_spec k' k) as [->|Hne]; simpl.
  - split; [discriminate | tauto].
  - rewrite IH. tauto.
Qed.

Lemma od_mem_app (k : string) (d1 d2 : list (string * gmap string jval)) :
  od_mem k (d1 ++ d2) = od_mem k d1 || od_mem k d2.
Proof.
  induction d1 as [|[k' v] d1 IH]; simpl; [reflexivity|].
  rewrite IH. apply orb_assoc.
Qed.

Lemma od_update_last (k : string) (f : gmap string jval -> gmap string jval)
  (d : list (string * gmap string jval)) (e : gmap string jval) :
  od_mem k d = false -> od_update k f (d ++ [(k, e)]) = d ++ [(k, f e)].
Proof.
  induction d as [|[k' v] d IH]; simpl; intros H.
  - rewrite String.eqb_refl. reflexivity.
  - destruct (String.eqb k' k); [discriminate H|].
    simpl in H. rewrite IH by exact H. reflexivity.
Qed.

Lemma monthly_step_present (m : string) (rs : list (string * option pyfloat))
  (d : list (string * gmap string jval)) (e : gmap string jval) :
  od_mem m d = false ->
  fold_left monthly_step (entry_rows m rs) (d ++ [(m, e)]) = d ++ [(m, fill json_of rs e)].
Proof.
  intros Hd. revert e. induction rs as [|[t s] rs IH]; intros e; [reflexivity|].
  simpl. rewrite od_mem_app, Hd. simpl. rewrite String.eqb_refl. simpl.
  rewrite od_update_last by exact Hd. apply IH.
Qed.

Lemma monthly_step_months (G : string -> list (string * option pyfloat)) (months : list string)
  (d : list (string * gmap string jval)) :
  List.NoDup months ->
  (forall m, In m months -> od_mem m d = false) ->
  (forall m, In m months -> G m <> []) ->
  fold_left monthly_step (flat_map (fun m => entry_rows m (G m)) months) d
  = d ++ map (fun m => (m, fill json_of (G m) (new_month m))) months.
Proof.
  intros Hnd. revert d. induction Hnd as [|m months Hnot Hnd IH]; intros d Hd HG.
  - simpl. symmetry. apply app_nil_r.
  - simpl. rewrite fold_left_app.
    assert (Hm : od_mem m d = false) by (apply Hd; left; reflexivity).
    destruct (G m) as [|[t s] rs] eqn:EG; [exfalso; apply (HG m); [left; reflexivity | exact EG]|].
    simpl. rewrite Hm. rewrite od_update_last by exact Hm.
    rewrite monthly_step_present by exact Hm.
    rewrite IH.
    + rewrite <- app_assoc. reflexivity.
    + intros m' Hm'. rewrite od_mem_app, (Hd m') by (right; exact Hm'). simpl.
      destruct (String.eqb_spec m m') as [->|_]; [contradiction | reflexivity].
    + intros m' Hm'. apply HG. right. exact Hm'.
Qed.

Lemma monthly_dict_eq (st : store) :
  monthly_dict st
  = map (fun m => (m, month_entry (rows st) m)) (sort_uniq (map month_of (rows st))).
Proof.
  unfold monthly_dict, month_type_sums.
  rewrite (monthly_step_months (fun m => group_sum tx_type (in_month (rows st) m))).
  - reflexivity.
  - apply sort_uniq_NoDup.
  - reflexivity.
  - intros m Hm E. apply group_sum_nil in E.
    apply sort_uniq_In, in_map_iff in Hm as (t & Et & Ht).
    assert (Hin : In t (in_month (rows st) m)).
    { apply filter_In. split; [exact Ht|]. apply String.eqb_eq. exact Et. }
    rewrite E in Hin. destruct Hin.
Qed.


End StatsFacts.

Module StatsTheorems.

Import Text Sql Dict Stats Examples TextFacts SqlFacts DictFacts StatsFacts.






End StatsTheorems.

(** ** The CSV writer and reader *)

Module CsvFacts.

Import Csv.

Lemma run_app (a b : list ascii) (s : rstate) : run (a ++ b) s = run b (run a s).
Proof. apply fold_left_app. Qed.

Lemma special_false (c : ascii) :
  special c = false ->
  Ascii.eqb c comma = false /\ Ascii.eqb c dquote = false /\ is_eol c = false.
Proof.
  unfold special, is_eol.
  destruct (Ascii.eqb c comma), (Ascii.eqb c dquote), (Ascii.eqb c CR),
    (Ascii.eqb c LF); simpl; intros H; try discriminate H; auto.
Qed.

(** Inside quotes, the escaped text is read back character by character. *)
Lemma run_escape (cs fld : list ascii) (flds : list string) (recs : list (list string)) :
  run (escape cs) (mkR InQuoted fld flds recs) = mkR InQuoted (rev cs ++ fld) flds recs.
Proof.
  revert fld. induction cs as [|c cs IH]; intros fld; [reflexivity|].
  simpl escape. destruct (Ascii.eqb c dquote) eqn:E.
  - apply Ascii.eqb_eq in E. subst c.
    change (run (dquote :: dquote :: escape cs) (mkR InQuoted fld flds recs))
      with (run (escape cs) (mkR InQuoted (dquote :: fld) flds recs)).
    rewrite IH. simpl. rewrite <- app_assoc. reflexivity.
  - change (run (c :: escape cs) (mkR InQuoted fld flds recs))
      with (run (escape cs) (step (mkR InQuoted fld flds recs) c)).
    unfold step. simpl. rewrite E, IH. simpl. rewrite <- app_assoc. reflexivity.
Qed.

(** Outside quotes, ordinary characters accumulate. *)
Lemma run_plain (cs fld : list ascii) (flds : list string) (recs : list (list string)) :
  existsb special cs = false ->
  run cs (mkR InField fld flds recs) = mkR InField (rev cs ++ fld) flds recs.
Proof.
  revert fld. induction cs as [|c cs IH]; intros fld H; [reflexivity|].
  simpl in H. apply orb_false_elim in H as [Hc Hcs].
  destruct (special_false c Hc) as (E1 & E2 & E3).
  change (run (c :: cs) (mkR InField fld flds recs))
    with (run cs (step (mkR InField fld flds recs) c)).
  unfold step. simpl. rewrite E1, E3, IH by exact Hcs.
  simpl. rewrite <- app_assoc. reflexivity.
Qed.

Lemma run_render_field (m : mode) (f : string) (flds : list string)
  (recs : list (list string)) :
  at_start m ->
  pending m f flds recs (run (render_field f) (mkR m [] flds recs)).
Proof.
  intros Hm. unfold render_field. cbv zeta.
  destruct (existsb special (list_ascii_of_string f)) eqn:E.
  - assert (H1 : run [dquote] (mkR m [] flds recs) = mkR InQuoted [] flds recs)
      by (destruct Hm as [-> | ->]; reflexivity).
    change (dquote :: escape (list_ascii_of_string f) ++ [dquote])
      with ([dquote] ++ escape (list_ascii_of_string f) ++ [dquote]).
    rewrite !run_app, H1, run_escape. rewrite app_nil_r.
    change (pending m f flds recs
              (mkR QuoteInQuoted (rev (list_ascii_of_string f)) flds recs)).
    apply pending_quoted. rewrite rev_involutive.
    apply string_of_list_ascii_of_string.
  - destruct (list_ascii_of_string f) as [|c cs] eqn:Ef.
    + apply pending_empty.
      rewrite <- (string_of_list_ascii_of_string f), Ef. reflexivity.
    + simpl in E. apply orb_false_elim in E as [Hc Hcs].
      destruct (special_false c Hc) as (E1 & E2 & E3).
      assert (H1 : run [c] (mkR m [] flds recs) = mkR InField [c] flds recs).
      { destruct Hm as [-> | ->]; unfold run; simpl; unfold step; simpl;
          unfold start_record, start_field; simpl; rewrite ?E3, E2, E1;
          try rewrite E3; reflexivity. }
      change (pending m f flds recs (run cs (run [c] (mkR m [] flds recs)))).
      rewrite H1, run_plain by exact Hcs.
      apply pending_plain.
      * rewrite rev_app_distr, rev_involutive.
        change (rev [c] ++ cs) with (c :: cs).
        rewrite <- Ef. apply string_of_list_ascii_of_string.
      * intros ->. discriminate Ef.
Qed.

Lemma pending_comma (m : mode) (f : string) (flds : list string)
  (recs : list (list string)) (s : rstate) :
  at_start m -> pending m f flds recs s ->
  step s comma = mkR StartField [] (f :: flds) recs.
Proof.
  intros Hm [-> | fld <- _ | fld <-].
  - destruct Hm as [-> | ->]; reflexivity.
  - reflexivity.
  - reflexivity.
Qed.

(** A terminator closes the record, except that at the very start of a
    record nothing pending means an empty record. *)
Lemma pending_eol (m : mode) (f : string) (flds : list string)
  (recs : list (list string)) (s : rstate) :
  at_start m -> pending m f flds recs s ->
  m = StartField \/ r_mode s <> StartRecord ->
  run [CR; LF] s = mkR StartRecord [] [] (rev (f :: flds) :: recs).
Proof.
  intros Hs [-> | fld <- _ | fld <-] Hm.
  - destruct Hs as [-> | ->]; [|reflexivity].
    destruct Hm as [Hm | Hm]; [discriminate Hm | simpl in Hm; congruence].
  - reflexivity.
  - reflexivity.
Qed.

Lemma pending_mode (m : mode) (f : string) (flds : list string)
  (recs : list (list string)) (s : rstate) :
  pending m f flds recs s -> f <> EmptyString -> r_mode s <> StartRecord.
Proof. intros [-> | fld _ _ | fld _] H; simpl; congruence. Qed.

Lemma run_join_fields (fs : list string) (m : mode) (flds : list string)
  (recs : list (list string)) :
  fs <> [] -> at_start m -> m = StartField \/ fs <> [EmptyString] ->
  run (join_fields fs ++ [CR; LF]) (mkR m [] flds recs)
  = mkR StartRecord [] [] (rev (rev fs ++ flds) :: recs).
Proof.
  revert m flds. induction fs as [|f fs IH]; intros m flds Hne Hm Hq; [congruence|].
  destruct fs as [|f' fs].
  - simpl join_fields. rewrite run_app.
    pose proof (run_render_field m f flds recs Hm) as P.
    rewrite (pending_eol _ _ _ _ _ Hm P); [reflexivity|].
    destruct Hq as [Hq|Hq]; [left; exact Hq|].
    right. eapply pending_mode; [exact P|]. intros ->. apply Hq. reflexivity.
  - change (join_fields (f :: f' :: fs))
      with (render_field f ++ [comma] ++ join_fields (f' :: fs)).
    rewrite <- !app_assoc, run_app, run_app.
    pose proof (run_render_field m f flds recs Hm) as P.
    change (run [comma] (run (render_field f) (mkR m [] flds recs)))
      with (step (run (render_field f) (mkR m [] flds recs)) comma).
    rewrite (pending_comma _ _ _ _ _ Hm P).
    rewrite IH; [|discriminate | right; reflexivity | left; reflexivity].
    simpl. rewrite <- !app_assoc. reflexivity.
Qed.

Lemma run_render_row (fs : list string) (recs : list (list string)) :
  run (render_row fs) (mkR StartRecord [] [] recs) = mkR StartRecord [] [] (fs :: recs).
Proof.
  destruct fs as [|f fs]; [reflexivity|].
  destruct (decide (f :: fs = [EmptyString])) as [E|Hne].
  - inversion E; subst. reflexivity.
  - assert (Hr : render_row (f :: fs) = join_fields (f :: fs) ++ [CR; LF]).
    { destruct f as [|c f]; [destruct fs; [congruence | reflexivity] | reflexivity]. }
    rewrite Hr, run_join_fields; [|discriminate | left; reflexivity | right; exact Hne].
    rewrite app_nil_r, rev_involutive. reflexivity.
Qed.

Lemma run_rows (rws : list (list string)) (recs : list (list string)) :
  run (concat (map render_row rws)) (mkR StartRecord [] [] recs)
  = mkR StartRecord [] [] (rev rws ++ recs).
Proof.
  revert recs. induction rws as [|r rws IH]; intros recs; [reflexivity|].
  simpl. rewrite run_app, run_render_row, IH, <- app_assoc. reflexivity.
Qed.

Lemma list_ascii_of_string_app (a b : string) :
  list_ascii_of_string (a +:+ b) = list_ascii_of_string a ++ list_ascii_of_string b.
Proof.
  induction a as [|c a IH]; [reflexivity|].
  change (String c a +:+ b) with (String c (a +:+ b)). simpl. rewrite IH. reflexivity.
Qed.

Lemma write_rows_chars (rws : list (list string)) (out : string) :
  list_ascii_of_string (write_rows rws out)
  = list_ascii_of_string out ++ concat (map render_row rws).
Proof.
  revert out. induction rws as [|r rws IH]; intros out; simpl.
  - symmetry. apply app_nil_r.
  - rewrite IH. unfold writerow.
    rewrite list_ascii_of_string_app, list_ascii_of_string_of_list_ascii, <- app_assoc.
    reflexivity.
Qed.

(** Round trip: the reader returns the records the writer was given,
    whatever characters the fields hold. *)
Lemma reader_write_rows (rws : list (list string)) :
  reader (write_rows rws EmptyString) = rws.
Proof.
  unfold reader. rewrite write_rows_chars. simpl.
  fold (run (concat (map render_row rws)) init). unfold init.
  rewrite run_rows, app_nil_r. unfold finish. simpl. apply rev_involutive.
Qed.

End CsvFacts.

(** ** CSV export *)

Module ExporterFacts.

Import Text Sql Dict Csv Exporter TextFacts SqlFacts DictFacts CsvFacts.

Lemma write_rows_map {A : Type} (g : A -> list string) (l : list A) (out : string) :
  fold_left (fun out x => writerow (g x) out) l out = write_rows (map g l) out.
Proof.
  revert out. induction l as [|x l IH]; intros out; [reflexivity|].
  simpl. rewrite IH. reflexivity.
Qed.

Lemma download_csv_rows (st : store) (a : csv_args) :
  csv_data (download_csv st a) = write_rows (csv_rows st a) EmptyString.
Proof.
  unfold download_csv, csv_rows. simpl.
  destruct (single_flag a); destruct (transactions st a) as [|tx txs]; try reflexivity.
  - rewrite (write_rows_map (fun tx => [single_line tx])). reflexivity.
  - rewrite (write_rows_map tx_row). reflexivity.
Qed.

Lemma reader_download_csv (st : store) (a : csv_args) :
  reader (csv_data (download_csv st a)) = csv_rows st a.
Proof. rewrite download_csv_rows. apply reader_write_rows. Qed.

Lemma string_app_assoc (a b c : string) : (a +:+ b) +:+ c = a +:+ b +:+ c.
Proof.
  induction a as [|x a IH]; [reflexivity|].
  change (String x ((a +:+ b) +:+ c) = String x (a +:+ b +:+ c)).
  rewrite IH. reflexivity.
Qed.

Lemma format_2f_two_decimals (q : Q) : two_decimals (format_2f (Finite q)).
Proof.
  unfold format_2f, fixed_2, two_decimals.
  set (c := round_half_even (Qabs q * 100)).
  exists ((if (Qnum q <? 0)%Z then "-" else EmptyString) +:+ str_of_Z (c / 100)),
         (c mod 100 / 10)%Z, (c mod 100 mod 10)%Z.
  split; [symmetry; apply string_app_assoc|].
  pose proof (Z.mod_pos_bound c 100 eq_refl) as H.
  pose proof (Z.mod_pos_bound (c mod 100) 10 eq_refl) as H'.
  split; [|lia].
  split; [apply Z.div_pos; lia|].
  assert (c mod 100 / 10 < 10)%Z by (apply Z.div_lt_upper_bound; lia). lia.
Qed.

Lemma matching_transactions_nil (st : store) (a : csv_args) :
  matching st a = [] <-> transactions st a = [].
Proof. unfold transactions. symmetry. apply order_by_date_nil. Qed.

Lemma csv_totals_nil (st : store) (a : csv_args) :
  matching st a = [] ->
  csv_totals st a = <["income" := Finite 0]> (<["expense" := Finite 0]> ∅).
Proof. intros E. unfold csv_totals. rewrite E. reflexivity. Qed.

(** [x or 0.0] is the value of [x]. *)
Lemma or_zero_same (x : pyfloat) : Float.same (or_zero (Some x)) x.
Proof.
  destruct x as [q| | |]; simpl; try exact I.
  destruct (Qeq_bool q 0) eqn:E; simpl; [|reflexivity].
  apply Qeq_bool_eq in E. symmetry. exact E.
Qed.

Lemma sub_same (x x' y y' : pyfloat) :
  Float.same x x' -> Float.same y y' ->
  Float.same (Float.sub x y) (Float.sub x' y').
Proof.
  destruct x, x', y, y'; simpl; try tauto.
  intros -> ->. reflexivity.
Qed.

Lemma same_sym (x y : pyfloat) : Float.same x y -> Float.same y x.
Proof. destruct x, y; simpl; try tauto. intros ->. reflexivity. Qed.

Lemma csv_totals_stats (st : store) (a : csv_args) (month : string) :
  arg_month a = Some month ->
  csv_totals st a = or_zero <$> Stats.totals (Stats.get_statistics st month).
Proof.
  intros Hm.
  assert (Hw : matching st a = where_like month (rows st)).
  { unfold matching, month_filter. rewrite Hm.
    destruct month; [symmetry; apply where_like_empty_month | reflexivity]. }
  unfold csv_totals. rewrite Hw. simpl Stats.totals.
  rewrite StatsFacts.totals_of_fill, <- (fill_fmap (fun q => q) or_zero).
  reflexivity.
Qed.

End ExporterFacts.

Module ExporterTheorems.

Import Text Sql Dict Csv Exporter Api Examples.
Import TextFacts SqlFacts DictFacts CsvFacts ExporterFacts.

(** C1 (as amended). For every table and month string the statistics
    totals have an income and an expense entry, and whenever both hold a
    number (neither sum is NULL) their difference is the same value as the
    balance the CSV export computes for the same month filter. *)
Theorem statistics_balance (st : store) (month : string)
  (single order : option string) :
  exists i e,
    Stats.totals (Stats.get_statistics st month) !! "income" = Some i
    /\ Stats.totals (Stats.get_statistics st month) !! "expense" = Some e
    /\ forall income expense,
         i = Some income -> e = Some expense ->
         Float.same (Float.sub income expense)
                    (balance st (mkArgs (Some month) single order)).
Proof.
  set (a := mkArgs (Some month) single order).
  pose proof (csv_totals_stats st a month eq_refl) as Hc.
  set (t := Stats.totals (Stats.get_statistics st month)) in *.
  assert (Hi : is_Some (t !! "income")).
  { unfold t. simpl. rewrite StatsFacts.totals_of_fill. apply fill_keeps.
    rewrite lookup_insert_eq. eauto. }
  assert (He : is_Some (t !! "expense")).
  { unfold t. simpl. rewrite StatsFacts.totals_of_fill. apply fill_keeps.
    rewrite lookup_insert_ne by discriminate. rewrite lookup_insert_eq. eauto. }
  destruct Hi as [i Hi], He as [e He].
  exists i, e. split; [exact Hi|]. split; [exact He|].
  intros income expense -> ->.
  unfold balance, get_total. rewrite Hc, !lookup_fmap, Hi, He. simpl fmap.
  cbv iota beta. apply sub_same; apply same_sym, or_zero_same.
Qed.

Lemma statistics_balance_witness :
  Float.same (Float.sub (Finite (0 + 3000)) (Finite (0 + (9 # 2))))
             (balance two_months (mkArgs (Some "2024-03") None None)).
Proof.
  destruct (statistics_balance two_months "2024-03" None None)
    as (i & e & Hi & He & H).
  apply H.
  - assert (E : Stats.totals (Stats.get_statistics two_months "2024-03") !! "income"
                = Some (Some (Finite (0 + 3000)))) by (vm_compute; reflexivity).
    rewrite E in Hi. injection Hi as <-. reflexivity.
  - assert (E : Stats.totals (Stats.get_statistics two_months "2024-03") !! "expense"
                = Some (Some (Finite (0 + (9 # 2))))) by (vm_compute; reflexivity).
    rewrite E in He. injection He as <-. reflexivity.
Defined.

(** C1 as stated fails: after two POSTs of incomes [Infinity] and
    [-Infinity] the income sum is NULL, so the statistics hold no income
    figure to subtract from ([null]), while the export turns the NULL into
    0.0 and reports a balance of 0.00. *)
Lemma statistics_balance_counterexample :
  let st := fst (add_transaction digits_float two_decimal_text
                   (fst (add_transaction digits_float two_decimal_text
                           empty_store (infinite_income PlusInf)))
                   (infinite_income MinusInf)) in
  let a := mkArgs (Some "2024-03") None None in
  st = windfalls
  /\ map tx_amount (rows st) = [PlusInf; MinusInf]
  /\ Stats.totals (Stats.get_statistics st "2024-03") !! "income" = Some None
  /\ balance st a = Finite 0
  /\ format_2f (balance st a) = "0.00".
Proof.
  intros st a. split; [reflexivity|]. split; [reflexivity|].
  split; [vm_compute; reflexivity|]. split; vm_compute; reflexivity.
Qed.

(** C3 (as amended). A single-column export whose filter matches no
    transaction is the four records [Data], the summary line with zero
    totals, one empty record, and [No transactions]. *)
Theorem single_layout_empty (st : store) (a : csv_args) :
  single_flag a = true ->
  matching st a = [] ->
  reader (csv_data (download_csv st a))
  = [["Data"];
     ["Total Income: 0.00 | Total Expense: 0.00 | Balance: 0.00"];
     [EmptyString];
     ["No transactions"]].
Proof.
  intros Hs Hm. rewrite reader_download_csv. unfold csv_rows. rewrite Hs.
  rewrite (proj1 (matching_transactions_nil st a) Hm).
  unfold summary_line, balance. rewrite (csv_totals_nil st a Hm). reflexivity.
Qed.

Lemma single_layout_empty_witness :
  reader (csv_data (download_csv empty_store march_single))
  = [["Data"];
     ["Total Income: 0.00 | Total Expense: 0.00 | Balance: 0.00"];
     [EmptyString];
     ["No transactions"]].
Proof. apply single_layout_empty; reflexivity. Defined.

(** C3 as stated fails: on the empty table the document has four records,
    the third being the blank one. *)
Lemma single_layout_empty_counterexample :
  single_flag march_single = true
  /\ matching empty_store march_single = []
  /\ List.length (reader (csv_data (download_csv empty_store march_single))) = 4%nat
  /\ reader (csv_data (download_csv empty_store march_single))
     <> [["Data"];
         ["Total Income: 0.00 | Total Expense: 0.00 | Balance: 0.00"];
         ["No transactions"]].
Proof.
  split; [reflexivity|]. split; [reflexivity|].
  split; [vm_compute; reflexivity|].
  intros E. apply (f_equal (@List.length _)) in E. vm_compute in E. discriminate E.
Qed.

(** C6 (as amended). In the multi-column layout the document reads back
    as the header record, the summary record (six empty fields, then
    income, expense and balance), and then one record per transaction with
    three empty trailing fields, or, when there is none, a single record
    whose second field is [No transactions] and whose last three fields are
    the totals; every amount is rendered by [:.2f], which gives two digits
    after the point for a finite value and [inf], [-inf] or [nan] for the
    others. *)
Theorem multi_layout (st : store) (a : csv_args) :
  single_flag a = false ->
  let income := get_total (csv_totals st a) "income" in
  let expense := get_total (csv_totals st a) "expense" in
  let e := EmptyString in
  reader (csv_data (download_csv st a))
  = ["ID"; "Description"; "Amount"; "Type"; "Category"; "Date";
     "Total Income"; "Total Expense"; "Balance"]
    :: [e; e; e; e; e; e;
        format_2f income; format_2f expense;
        format_2f (Float.sub income expense)]
    :: match transactions st a with
       | [] => [[e; "No transactions"; e; e; e; e;
                 format_2f income; format_2f expense;
                 format_2f (Float.sub income expense)]]
       | txs =>
           map (fun tx => [str_of_Z (tx_id tx); tx_description tx;
                           format_2f (tx_amount tx); tx_type tx;
                           tx_category tx; tx_date tx; e; e; e]) txs
       end
  /\ (forall x, match x with
                | Finite _ => two_decimals (format_2f x)
                | PlusInf => format_2f x = "inf"
                | MinusInf => format_2f x = "-inf"
                | NaN => format_2f x = "nan"
                end).
Proof.
  intros Hs income expense e. split.
  - rewrite reader_download_csv. unfold csv_rows. rewrite Hs. reflexivity.
  - intros [q| | |]; [apply format_2f_two_decimals | reflexivity..].
Qed.

Lemma multi_layout_witness :
  reader (csv_data (download_csv march_table march_multi))
  = [["ID"; "Description"; "Amount"; "Type"; "Category"; "Date";
      "Total Income"; "Total Expense"; "Balance"];
     [EmptyString; EmptyString; EmptyString; EmptyString; EmptyString;
      EmptyString; "3000.00"; "4.50"; "2995.50"];
     ["2"; "Salary"; "3000.00"; "income"; EmptyString; "2024-03-01";
      EmptyString; EmptyString; EmptyString];
     ["1"; "Coffee, large"; "4.50"; "expense"; "Food"; "2024-03-05";
      EmptyString; EmptyString; EmptyString]].
Proof.
  destruct (multi_layout march_table march_multi eq_refl) as [H _].
  rewrite H. vm_compute. reflexivity.
Defined.

(** C6 as stated fails: after a POST of an income of [Infinity] the summary
    record and the transaction record hold [inf], which has no decimals. *)
Lemma multi_layout_counterexample :
  let st := fst (add_transaction digits_float two_decimal_text empty_store
                   (infinite_income PlusInf)) in
  reader (csv_data (download_csv st march_multi))
  = [["ID"; "Description"; "Amount"; "Type"; "Category"; "Date";
      "Total Income"; "Total Expense"; "Balance"];
     [EmptyString; EmptyString; EmptyString; EmptyString; EmptyString;
      EmptyString; "inf"; "0.00"; "inf"];
     ["1"; "Windfall"; "inf"; "income"; EmptyString; "2024-03-01";
      EmptyString; EmptyString; EmptyString]]
  /\ ~ two_decimals "inf".
Proof.
  intros st. split; [vm_compute; reflexivity|].
  intros (pre & a & b & E & _).
  destruct pre as [|c1 [|c2 [|c3 [|c4 pre]]]]; cbv -[digit] in E; discriminate E.
Qed.

(** C4 (as amended). When at least one transaction matches, records 3..N
    of the multi-column document are, for the matching transactions sorted
    by date in the requested direction, the id, description, amount rendered
    to two decimals, type, category and date, followed by three empty
    fields. *)
Theorem csv_round_trip (st : store) (a : csv_args) :
  single_flag a = false ->
  matching st a <> [] ->
  skipn 2 (reader (csv_data (download_csv st a)))
  = map (fun tx => [str_of_Z (tx_id tx); tx_description tx;
                    format_2f (tx_amount tx); tx_type tx;
                    tx_category tx; tx_date tx;
                    EmptyString; EmptyString; EmptyString])
        (transactions st a)
  /\ Permutation (matching st a) (transactions st a)
  /\ StronglySorted (date_ord (order_clause a)) (transactions st a).
Proof.
  intros Hs Hne. split; [|split].
  - rewrite reader_download_csv. unfold csv_rows. rewrite Hs. simpl skipn.
    destruct (transactions st a) eqn:E; [|reflexivity].
    apply matching_transactions_nil in E. contradiction.
  - apply order_by_date_perm.
  - apply order_by_date_sorted.
Qed.

Lemma csv_round_trip_witness :
  skipn 2 (reader (csv_data (download_csv march_table march_multi)))
  = [["2"; "Salary"; "3000.00"; "income"; EmptyString; "2024-03-01";
      EmptyString; EmptyString; EmptyString];
     ["1"; "Coffee, large"; "4.50"; "expense"; "Food"; "2024-03-05";
      EmptyString; EmptyString; EmptyString]].
Proof.
  destruct (csv_round_trip march_table march_multi eq_refl) as [H _].
  - vm_compute. discriminate.
  - rewrite H. vm_compute. reflexivity.
Defined.

(** C4 as stated fails: amounts 0.125 and 0.12 are both written [0.12], so
    two tables with different tuples export the same document and no way of
    parsing it gives back the stored tuples of both. *)
Lemma csv_round_trip_counterexample :
  ~ exists parse : list (list string) -> list transaction,
      forall st a,
        single_flag a = false ->
        Forall2 same_tuple
                (parse (skipn 2 (reader (csv_data (download_csv st a)))))
                (transactions st a).
Proof.
  intros [parse H].
  set (a := mkArgs None None None).
  set (st1 := mkStore [mkTx 1 "Tea" (Finite (1 # 8)) "expense" "Food" "2024-03-05"] 1).
  set (st2 := mkStore [mkTx 1 "Tea" (Finite (3 # 25)) "expense" "Food" "2024-03-05"] 1).
  pose proof (H st1 a eq_refl) as H1. pose proof (H st2 a eq_refl) as H2.
  assert (E : csv_data (download_csv st1 a) = csv_data (download_csv st2 a))
    by (vm_compute; reflexivity).
  rewrite E in H1.
  change (transactions st1 a)
    with [mkTx 1 "Tea" (Finite (1 # 8)) "expense" "Food" "2024-03-05"] in H1.
  change (transactions st2 a)
    with [mkTx 1 "Tea" (Finite (3 # 25)) "expense" "Food" "2024-03-05"] in H2.
  destruct (parse _) as [|x l]; inversion H1 as [|? ? ? ? S1 _]; subst.
  inversion H2 as [|? ? ? ? S2 _]; subst.
  destruct S1 as (_ & _ & Q1 & _), S2 as (_ & _ & Q2 & _).
  simpl in Q1, Q2. destruct (tx_amount x) as [q| | |]; try contradiction.
  simpl in Q1, Q2.
  assert (C : (1 # 8 == 3 # 25)%Q) by (transitivity q; [symmetry; exact Q1 | exact Q2]).
  vm_compute in C. discriminate C.
Qed.

(** C10. The export is a total function of the order parameter: for every
    value, and when the parameter is absent, the rows fetched are exactly
    the rows that match the month filter, each as often as it is stored;
    they are in descending date order exactly when the parameter is one of
    the case variants of [desc], and in ascending date order for every
    other value and when the parameter is absent. *)
Theorem order_parameter (st : store) (a : csv_args) :
  (order_clause a = DESC <->
     exists c1 c2 c3 c4,
       arg_order a = Some (String c1 (String c2 (String c3 (String c4 EmptyString))))
       /\ (c1 = "d" \/ c1 = "D")%char /\ (c2 = "e" \/ c2 = "E")%char
       /\ (c3 = "s" \/ c3 = "S")%char /\ (c4 = "c" \/ c4 = "C")%char)
  /\ (order_clause a <> DESC -> order_clause a = ASC)
  /\ Permutation (matching st a) (transactions st a)
  /\ (order_clause a = ASC ->
      StronglySorted (fun x y => String.leb (tx_date x) (tx_date y) = true)
                     (transactions st a))
  /\ (order_clause a = DESC ->
      StronglySorted (fun x y => String.leb (tx_date y) (tx_date x) = true)
                     (transactions st a)).
Proof.
  split; [|split; [|split; [|split]]].
  - unfold order_clause.
    destruct (String.eqb_spec (lower (get_arg (arg_order a) "asc")) "desc") as [E|Hne].
    + split; [intros _|reflexivity].
      destruct (arg_order a) as [o|]; [|discriminate E]. simpl in E.
      destruct o as [|c1 [|c2 [|c3 [|c4 [|c5 o]]]]]; try discriminate E.
      injection E as E1 E2 E3 E4.
      exists c1, c2, c3, c4. split; [reflexivity|].
      apply (lower_char_is c1 "d") in E1; [|simpl; auto].
      apply (lower_char_is c2 "e") in E2; [|simpl; auto].
      apply (lower_char_is c3 "s") in E3; [|simpl; auto].
      apply (lower_char_is c4 "c") in E4; [|simpl; auto].
      auto.
    + split; [discriminate|]. intros (c1 & c2 & c3 & c4 & Eo & H1 & H2 & H3 & H4).
      exfalso. apply Hne. rewrite Eo. simpl.
      apply (lower_char_is c1 "d") in H1; [|simpl; auto].
      apply (lower_char_is c2 "e") in H2; [|simpl; auto].
      apply (lower_char_is c3 "s") in H3; [|simpl; auto].
      apply (lower_char_is c4 "c") in H4; [|simpl; auto].
      rewrite H1, H2, H3, H4. reflexivity.
  - destruct (order_clause a); [reflexivity | congruence].
  - apply order_by_date_perm.
  - intros E. pose proof (order_by_date_sorted (order_clause a) (matching st a)) as S.
    rewrite E in S at 1. exact S.
  - intros E. pose proof (order_by_date_sorted (order_clause a) (matching st a)) as S.
    rewrite E in S at 1. exact S.
Qed.

Lemma order_parameter_witness :
  map tx_id (transactions march_table (mkArgs None None (Some "DeSc"))) = [1%Z; 2%Z]
  /\ map tx_id (transactions march_table (mkArgs None None (Some "descending")))
     = [2%Z; 1%Z]
  /\ Permutation (rows march_table)
                 (transactions march_table (mkArgs None None (Some "DeSc")))
  /\ StronglySorted (fun x y => String.leb (tx_date y) (tx_date x) = true)
                    (transactions march_table (mkArgs None None (Some "DeSc"))).
Proof.
  split; [vm_compute; reflexivity|]. split; [vm_compute; reflexivity|].
  pose proof (order_parameter march_table (mkArgs None None (Some "DeSc")))
    as (_ & _ & P & _ & S).
  split; [exact P | apply S; reflexivity].
Defined.

End ExporterTheorems.

(** ** Transaction endpoints *)

Module ApiFacts.

Import Text Sql Api.

Lemma max_rowid_ge (l : list transaction) (t : transaction) :
  In t l -> (tx_id t <= max_rowid l)%Z.
Proof.
  induction l as [|h l IH]; simpl; [tauto|].
  intros [->|H]; [lia | specialize (IH H); lia].
Qed.

Lemma next_rowid_fresh (st : store) (t : transaction) :
  In t (rows st) -> (tx_id t < next_rowid st)%Z.
Proof. intros H. apply max_rowid_ge in H. unfold next_rowid. lia. Qed.

Section Handlers.

Variable float_of_str : string -> option pyfloat.
Variable real_to_text : pyfloat -> string.

#[local] Abbreviation py_float := (py_float float_of_str).
#[local] Abbreviation text_column := (text_column real_to_text).
#[local] Abbreviation sql_insert := (sql_insert real_to_text).
#[local] Abbreviation add_transaction := (add_transaction float_of_str real_to_text).
#[local] Abbreviation column_text := (column_text real_to_text).

Lemma adapt_text (col : string) (v : pyval) :
  truthy v = true -> bindable v = true ->
  exists sv, adapt v = Ok sv /\ text_column col sv = Ok (column_text v).
Proof.
  unfold bindable.
  destruct v as [|b|z|x|s| |l|d]; simpl; try discriminate; intros Ht Hb.
  - destruct b; [|discriminate Ht]. eexists; split; reflexivity.
  - destruct (int64 z); [|discriminate Hb]. eexists; split; reflexivity.
  - destruct (Float.is_nan x); [discriminate Hb|]. eexists; split; reflexivity.
  - eexists; split; reflexivity.
Qed.

Lemma py_or_empty (v : pyval) :
  truthy v = false -> py_or v (PStr EmptyString) = PStr EmptyString.
Proof. unfold py_or. intros ->. reflexivity. Qed.

Lemma adapt_category (v : pyval) :
  bindable (py_or v (PStr EmptyString)) = true ->
  exists sv, adapt (py_or v (PStr EmptyString)) = Ok sv
             /\ text_column "category" sv
                = Ok (column_text (py_or v (PStr EmptyString))).
Proof.
  unfold py_or. destruct (truthy v) eqn:Ht.
  - apply adapt_text, Ht.
  - intros _. eexists; split; reflexivity.
Qed.

Lemma sql_insert_ok (st : store) (description ttype category date : pyval)
  (a : pyfloat) :
  truthy description = true -> bindable description = true ->
  Float.is_nan a = false ->
  truthy ttype = true -> bindable ttype = true ->
  bindable (py_or category (PStr EmptyString)) = true ->
  truthy date = true -> bindable date = true ->
  sql_insert st description a ttype (py_or category (PStr EmptyString)) date
  = Ok (mkStore (rows st ++ [mkTx (next_rowid st) (column_text description) a
                                 (column_text ttype)
                                 (column_text (py_or category (PStr EmptyString)))
                                 (column_text date)])
                (next_rowid st),
        next_rowid st).
Proof.
  intros Hd Hd' Ha Ht Ht' Hc Hdt Hdt'.
  destruct (adapt_text "description" _ Hd Hd') as (sd & E1 & F1).
  destruct (adapt_text "type" _ Ht Ht') as (stt & E2 & F2).
  destruct (adapt_category _ Hc) as (sc & E3 & F3).
  destruct (adapt_text "date" _ Hdt Hdt') as (sdt & E4 & F4).
  unfold Api.sql_insert, amount_column. rewrite E1, E2, E3, E4. simpl.
  rewrite F1, Ha. simpl. rewrite F2. simpl. rewrite F3. simpl. rewrite F4.
  reflexivity.
Qed.

(** A value that binds without raising either yields its text or is NULL
    and violates the NOT NULL constraint of the column. *)
Lemma adapt_column (col : string) (v : pyval) :
  adaptable v = true ->
  exists sv, adapt v = Ok sv
             /\ (text_column col sv = Ok (column_text v)
                 \/ exists msg, text_column col sv = Exc (IntegrityError msg)).
Proof.
  unfold adaptable.
  destruct v as [|b|z|x|s| |l|d]; simpl; intros H; try discriminate H.
  - eexists; split; [reflexivity|]. right. eexists; reflexivity.
  - eexists; split; [reflexivity|]. left. destruct b; reflexivity.
  - destruct (int64 z); [|discriminate H].
    eexists; split; [reflexivity|]. left. reflexivity.
  - eexists; split; [reflexivity|].
    destruct (Float.is_nan x); [right; eexists; reflexivity | left; reflexivity].
  - eexists; split; [reflexivity|]. left. reflexivity.
Qed.

(** When every parameter binds, the INSERT stores the row or fails on a
    NOT NULL constraint. *)
Lemma sql_insert_adaptable (st : store) (description ttype category date : pyval)
  (a : pyfloat) :
  adaptable description = true -> adaptable ttype = true ->
  adaptable category = true -> adaptable date = true ->
  sql_insert st description a ttype category date
  = Ok (mkStore (rows st ++ [mkTx (next_rowid st) (column_text description) a
                                 (column_text ttype) (column_text category)
                                 (column_text date)])
                (next_rowid st),
        next_rowid st)
  \/ exists msg,
       sql_insert st description a ttype category date = Exc (IntegrityError msg).
Proof.
  intros Hd Ht Hc Hdt.
  destruct (adapt_column "description" _ Hd) as (sd & E1 & F1).
  destruct (adapt_column "type" _ Ht) as (stt & E2 & F2).
  destruct (adapt_column "category" _ Hc) as (sc & E3 & F3).
  destruct (adapt_column "date" _ Hdt) as (sdt & E4 & F4).
  unfold Api.sql_insert, amount_column. rewrite E1, E2, E3, E4. simpl.
  destruct F1 as [-> | [msg ->]]; simpl; [|right; eexists; reflexivity].
  destruct (Float.is_nan a); simpl; [right; eexists; reflexivity|].
  destruct F2 as [-> | [msg ->]]; simpl; [|right; eexists; reflexivity].
  destruct F3 as [-> | [msg ->]]; simpl; [|right; eexists; reflexivity].
  destruct F4 as [-> | [msg ->]]; simpl; [|right; eexists; reflexivity].
  left. reflexivity.
Qed.

(** The adapter never raises an integrity error: that is the table's. *)
Lemma adapt_exn (v : pyval) (e : exn) (msg : string) :
  adapt v = Exc e -> e <> IntegrityError msg.
Proof.
  intros H ->. destruct v as [|b|z|x|s| |l|d]; simpl in H; try discriminate H.
  destruct (int64 z); discriminate H.
Qed.

(** When one of the text parameters cannot be bound the INSERT raises the
    adapter's exception, whatever the other values are. *)
Lemma sql_insert_unadaptable (st : store) (description ttype category date : pyval)
  (a : pyfloat) :
  adaptable description && adaptable ttype && adaptable category && adaptable date
  = false ->
  exists e,
    sql_insert st description a ttype category date = Exc e
    /\ forall msg, e <> IntegrityError msg.
Proof.
  unfold adaptable, Api.sql_insert.
  destruct (adapt description) as [sd|e] eqn:E1; simpl;
    [|intros _; exists e; split; [reflexivity | intros msg; apply (adapt_exn _ _ _ E1)]].
  destruct (adapt ttype) as [stt|e] eqn:E2; simpl;
    [|intros _; exists e; split; [reflexivity | intros msg; apply (adapt_exn _ _ _ E2)]].
  destruct (adapt category) as [sc|e] eqn:E3; simpl;
    [|intros _; exists e; split; [reflexivity | intros msg; apply (adapt_exn _ _ _ E3)]].
  destruct (adapt date) as [sdt|e] eqn:E4; simpl;
    [|intros _; exists e; split; [reflexivity | intros msg; apply (adapt_exn _ _ _ E4)]].
  discriminate.
Qed.

Lemma py_float_exn (v : pyval) (e : exn) :
  py_float v = Exc e -> e = TypeError \/ e = ValueError \/ e = OverflowError.
Proof.
  destruct v as [|b|z|x|s| |l|d]; simpl; try (intros [= <-]; auto); try discriminate.
  - destruct (Z.abs z <? float_int_bound)%Z; [discriminate | intros [= <-]; auto].
  - destruct (float_of_str s); [discriminate | intros [= <-]; auto].
Qed.

Lemma is_none_spec (v : pyval) : is_none v = true <-> v = PNone.
Proof. destruct v; simpl; split; congruence. Qed.

Lemma missing_required_dec (d : list (string * pyval)) :
  negb (truthy (dict_get d "description")) || is_none (dict_get d "amount")
  || negb (truthy (dict_get d "type")) || negb (truthy (dict_get d "date")) = true
  <-> missing_required d.
Proof.
  unfold missing_required. rewrite !orb_true_iff, !negb_true_iff, is_none_spec.
  tauto.
Qed.

End Handlers.

End ApiFacts.

Module ApiTheorems.

Import Text Sql Api Examples ApiFacts SqlFacts.

Section Handlers.

Variable float_of_str : string -> option pyfloat.
Variable real_to_text : pyfloat -> string.

#[local] Abbreviation py_float := (py_float float_of_str).
#[local] Abbreviation add_transaction := (add_transaction float_of_str real_to_text).
#[local] Abbreviation refused := (refused float_of_str real_to_text).
#[local] Abbreviation well_typed := (well_typed float_of_str).
#[local] Abbreviation column_text := (column_text real_to_text).

(** C7 (as amended). For every request the answer is a 400
    [{success: false, error}] exactly when the body is missing, unparseable
    or falsy, or it is an object in which one of description, type, date is
    missing or falsy, or amount is missing or null, or amount does not
    convert to a number, or the store reports an integrity failure; the
    store is then unchanged.  Otherwise either one row is appended under a
    fresh id, holding the fields of the request, and the answer is
    [{id, success: true}] with that id, or the handler raises and the
    store is unchanged.  It does not raise when the body is falsy or an
    object whose text fields the store adapter binds and whose amount is
    not an integer beyond the range of [float]. *)
Theorem add_transaction_outcome (st : store) (data : pyval) :
  let st' := fst (add_transaction st data) in
  let out := snd (add_transaction st data) in
  ((exists error, out = bad_request error) <-> refused st data)
  /\ (refused st data -> st' = st)
  /\ (~ refused st data ->
      (exists tx,
         rows st' = rows st ++ [tx]
         /\ out = created (tx_id tx)
         /\ (forall t, In t (rows st) -> (tx_id t < tx_id tx)%Z)
         /\ exists d, data = PDict d
             /\ tx_description tx = column_text (dict_get d "description")
             /\ py_float (dict_get d "amount") = Ok (tx_amount tx)
             /\ tx_type tx = column_text (dict_get d "type")
             /\ tx_category tx
                = column_text (py_or (dict_get d "category") (PStr EmptyString))
             /\ tx_date tx = column_text (dict_get d "date"))
      \/ (st' = st /\ exists e, out = Raise e))
  /\ (well_typed data -> forall e, out <> Raise e).
Proof.
  intros st' out. subst st' out. unfold Api.add_transaction.
  destruct (truthy data) eqn:Ht; simpl negb; cbv iota.
  2:{ assert (R : refused st data) by (left; exact Ht).
      simpl. split; [split; [intros _; exact R | intros _; eexists; reflexivity]|].
      split; [reflexivity|]. split; [intros N; contradiction|].
      intros _ e. discriminate. }
  destruct data as [|b|z|x|s| |l|d];
    try (match goal with
         | |- context [refused st ?v] =>
             assert (N : ~ refused st v)
               by (intros [F | (d' & E & _)]; [congruence | discriminate E])
         end;
         simpl;
         split; [split; [intros [err E]; discriminate E | intros R; contradiction]|];
         split; [intros R; contradiction|];
         split; [intros _; right; split; [reflexivity | eexists; reflexivity]|];
         intros [F | (d' & E & _)]; [congruence | discriminate E]).
  destruct (negb (truthy (dict_get d "description")) || is_none (dict_get d "amount")
            || negb (truthy (dict_get d "type")) || negb (truthy (dict_get d "date")))
    eqn:Hmiss.
  { apply missing_required_dec in Hmiss.
    assert (R : refused st (PDict d)).
    { right. exists d. split; [reflexivity | left; exact Hmiss]. }
    simpl. split; [split; [intros _; exact R | intros _; eexists; reflexivity]|].
    split; [reflexivity|]. split; [intros N; contradiction|].
    intros _ e. discriminate. }
  assert (Hnm : ~ missing_required d).
  { intros M. apply (missing_required_dec d) in M. congruence. }
  clear Hmiss.
  destruct (Api.py_float float_of_str (dict_get d "amount")) as [a|e] eqn:Hf.
  - destruct (adaptable (dict_get d "description") && adaptable (dict_get d "type")
              && adaptable (py_or (dict_get d "category") (PStr EmptyString))
              && adaptable (dict_get d "date")) eqn:Had.
    + apply andb_true_iff in Had as [Had Bdt].
      apply andb_true_iff in Had as [Had Bc].
      apply andb_true_iff in Had as [Bd Bt].
      destruct (sql_insert_adaptable real_to_text st (dict_get d "description")
                  (dict_get d "type")
                  (py_or (dict_get d "category") (PStr EmptyString))
                  (dict_get d "date") a Bd Bt Bc Bdt) as [Ei | [msg Ei]].
      * assert (N : ~ refused st (PDict d)).
        { intros [F | (d' & [= <-] & [M | [[F|F] | (a' & msg & Ea & Ei')]])];
            congruence. }
        rewrite Ei. simpl.
        split; [split; [intros [err E]; discriminate E | intros R; contradiction]|].
        split; [intros R; contradiction|].
        split; [|intros _ e; discriminate].
        intros _. left.
        eexists. split; [reflexivity|]. split; [reflexivity|].
        split; [intros t Hin; apply next_rowid_fresh, Hin|].
        exists d. simpl. auto 10.
      * assert (R : refused st (PDict d)).
        { right. exists d. split; [reflexivity|]. right. right.
          exists a, msg. split; [exact Hf | exact Ei]. }
        rewrite Ei. simpl.
        split; [split; [intros _; exact R | intros _; eexists; reflexivity]|].
        split; [reflexivity|]. split; [intros N; contradiction|].
        intros _ e. discriminate.
    + destruct (sql_insert_unadaptable real_to_text st _ _ _ _ a Had)
        as (e & Ei & Hne).
      assert (N : ~ refused st (PDict d)).
      { intros [F | (d' & [= <-] & [M | [[F|F] | (a' & msg & Ea & Ei')]])];
          congruence. }
      rewrite Ei.
      assert (Ho : (match e with
                    | IntegrityError msg => (st, bad_request msg)
                    | _ => (st, Raise e)
                    end) = (st, Raise e)).
      { destruct e; try reflexivity. exfalso. exact (Hne _ eq_refl). }
      rewrite Ho. simpl.
      split; [split; [intros [err E]; discriminate E | intros R; contradiction]|].
      split; [intros R; contradiction|].
      split; [intros _; right; split; [reflexivity | eexists; reflexivity]|].
      intros [F | (d' & [= <-] & Bd & Bt & Bc & Bdt & _)]; [congruence|].
      rewrite Bd, Bt, Bc, Bdt in Had. discriminate Had.
  - destruct (py_float_exn float_of_str _ _ Hf) as [-> | [-> | ->]].
    + assert (R : refused st (PDict d)).
      { right. exists d. split; [reflexivity|]. right. left. right. exact Hf. }
      simpl. split; [split; [intros _; exact R | intros _; eexists; reflexivity]|].
      split; [reflexivity|]. split; [intros N; contradiction|].
      intros _ e. discriminate.
    + assert (R : refused st (PDict d)).
      { right. exists d. split; [reflexivity|]. right. left. left. exact Hf. }
      simpl. split; [split; [intros _; exact R | intros _; eexists; reflexivity]|].
      split; [reflexivity|]. split; [intros N; contradiction|].
      intros _ e. discriminate.
    + assert (N : ~ refused st (PDict d)).
      { intros [F | (d' & [= <-] & [M | [[F|F] | (a' & msg & Ea & Ei')]])];
          congruence. }
      simpl.
      split; [split; [intros [err E]; discriminate E | intros R; contradiction]|].
      split; [intros R; contradiction|].
      split; [intros _; right; split; [reflexivity | eexists; reflexivity]|].
      intros [F | (d' & [= <-] & _ & _ & _ & _ & Hov)]; congruence.
Qed.

(** C9. A request that is valid apart from its category — description,
    type and date truthy and accepted by the adapter, amount convertible
    to a number that is not NaN — and whose category is absent, null or any other falsy value is
    inserted with the empty string as category; and each of the other four
    fields is required: without it the answer is a 400 and nothing is
    stored. *)
Theorem category_optional (st : store) (d : list (string * pyval)) :
  (forall a,
     truthy (dict_get d "description") = true ->
     bindable (dict_get d "description") = true ->
     py_float (dict_get d "amount") = Ok a ->
     Float.is_nan a = false ->
     truthy (dict_get d "type") = true ->
     bindable (dict_get d "type") = true ->
     truthy (dict_get d "date") = true ->
     bindable (dict_get d "date") = true ->
     truthy (dict_get d "category") = false ->
     exists tx,
       add_transaction st (PDict d)
       = (mkStore (rows st ++ [tx]) (tx_id tx), created (tx_id tx))
       /\ tx_category tx = EmptyString
       /\ tx_id tx = next_rowid st)
  /\ (forall k,
        In k ["description"; "amount"; "type"; "date"] ->
        dict_get d k = PNone ->
        exists error, add_transaction st (PDict d) = (st, bad_request error)).
Proof.
  split.
  - intros a Td Bd Hf Hn Tt Bt Tdt Bdt Fc.
    assert (Ha : is_none (dict_get d "amount") = false).
    { destruct (dict_get d "amount"); try reflexivity. discriminate Hf. }
    assert (Hd : truthy (PDict d) = true).
    { destruct d; [discriminate Td | reflexivity]. }
    unfold Api.add_transaction. rewrite Hd, Td, Ha, Tt, Tdt, Hf. simpl.
    rewrite (sql_insert_ok real_to_text st _ _ _ _ a Td Bd Hn Tt Bt); try assumption.
    + rewrite (py_or_empty _ Fc).
      exists (mkTx (next_rowid st) (column_text (dict_get d "description")) a
                   (column_text (dict_get d "type")) EmptyString
                   (column_text (dict_get d "date"))).
      split; [reflexivity|]. split; reflexivity.
    + rewrite (py_or_empty _ Fc). reflexivity.
  - intros k Hk Hnone. unfold Api.add_transaction.
    destruct (truthy (PDict d)); [|eexists; reflexivity]. simpl negb. cbv iota.
    assert (Hm : negb (truthy (dict_get d "description"))
                 || is_none (dict_get d "amount")
                 || negb (truthy (dict_get d "type"))
                 || negb (truthy (dict_get d "date")) = true).
    { destruct Hk as [<-|[<-|[<-|[<-|[]]]]]; rewrite Hnone; simpl;
        rewrite ?orb_true_r; reflexivity. }
    rewrite Hm. eexists; reflexivity.
Qed.

End Handlers.

Lemma add_transaction_outcome_witness :
  snd (add_transaction digits_float two_decimal_text empty_store coffee_request)
  = created 1
  /\ map tx_description
         (rows (fst (add_transaction digits_float two_decimal_text
                                     empty_store coffee_request)))
     = ["Coffee"].
Proof.
  assert (Hw : well_typed digits_float coffee_request).
  { right. eexists. split; [reflexivity|].
    repeat split; try reflexivity. discriminate. }
  assert (N : ~ refused digits_float two_decimal_text empty_store coffee_request).
  { intros [F | (d & E & [M | [[F|F] | (a & msg & Ea & Ei)]])];
      try discriminate F; injection E as <-.
    - destruct M as [M | [M | [M | M]]]; discriminate M.
    - discriminate F.
    - discriminate F.
    - vm_compute in Ea. injection Ea as <-. vm_compute in Ei. discriminate Ei. }
  destruct (add_transaction_outcome digits_float two_decimal_text
              empty_store coffee_request) as (_ & _ & H & Hraise).
  destruct (H N) as [(tx & Hr & Ho & _ & d & E & Hd & _) | (_ & e & He)];
    [|exfalso; exact (Hraise Hw e He)].
  injection E as <-. split.
  - rewrite Ho. f_equal.
    assert (L : [1%Z] = map tx_id (rows empty_store ++ [tx]))
      by (rewrite <- Hr; vm_compute; reflexivity).
    simpl in L. injection L as <-. reflexivity.
  - rewrite Hr. simpl. rewrite Hd. reflexivity.
Defined.

(** C7 as stated fails: a body that parses to a non-empty JSON array is
    answered neither with a 400 nor with [{id, success: true}]; the
    handler raises on [data.get] and nothing is stored. *)
Lemma add_transaction_counterexample :
  add_transaction digits_float two_decimal_text empty_store (PList [PInt 1])
  = (empty_store, Raise AttributeError)
  /\ (forall error, Raise AttributeError <> bad_request error)
  /\ (forall id, Raise AttributeError <> created id).
Proof. split; [reflexivity|]. split; intros ?; discriminate. Qed.

(** The integrity failure a request can cause: an amount that is NaN is
    bound as NULL and violates the NOT NULL constraint of the column. *)
Lemma nan_amount_refused :
  add_transaction digits_float two_decimal_text empty_store nan_request
  = (empty_store, bad_request "NOT NULL constraint failed: transactions.amount")
  /\ integrity_failure digits_float two_decimal_text empty_store
       [("description", PStr "Coffee"); ("amount", PFloat NaN);
        ("type", PStr "expense"); ("date", PStr "2024-03-05")].
Proof.
  split; [reflexivity|]. exists NaN. eexists. split; reflexivity.
Qed.

Lemma category_optional_witness :
  exists tx,
    add_transaction digits_float two_decimal_text empty_store coffee_request
    = (mkStore [tx] 1, created 1)
    /\ tx_category tx = EmptyString.
Proof.
  destruct (category_optional digits_float two_decimal_text empty_store
              [("description", PStr "Coffee"); ("amount", PStr "4");
               ("type", PStr "expense"); ("category", PInt 0);
               ("date", PStr "2024-03-05")]) as [H _].
  destruct (H (Finite 4) eq_refl eq_refl eq_refl eq_refl eq_refl eq_refl eq_refl
              eq_refl eq_refl)
    as (tx & E & Hc & Hid).
  exists tx. split; [|exact Hc].
  unfold coffee_request. rewrite E, Hid. reflexivity.
Defined.

(** C8 (as amended). For every id that fits a 64-bit SQLite INTEGER,
    whether or not a transaction has it, DELETE answers [{success: true}],
    no listed transaction has that id afterwards, every other row is kept,
    and deleting again changes nothing. *)
Theorem delete_idempotent (st : store) (id : Z) :
  int64 id = true ->
  let st' := fst (delete_transaction st id) in
  snd (delete_transaction st id) = Respond 200 [("success", PBool true)]
  /\ (forall t, In t (get_transactions st') -> tx_id t <> id)
  /\ (forall t, tx_id t <> id ->
                (In t (get_transactions st') <-> In t (get_transactions st)))
  /\ delete_transaction st' id = (st', Respond 200 [("success", PBool true)]).
Proof.
  intros Hid. unfold delete_transaction. simpl adapt. rewrite Hid. simpl.
  assert (Hin : forall l t, In t (get_transactions (mkStore l (seq st))) <-> In t l).
  { intros l t. unfold get_transactions. simpl.
    split; apply Permutation_in;
      [apply Permutation_sym|]; apply order_by_date_perm. }
  split; [reflexivity|]. split; [|split].
  - intros t Ht. apply Hin, filter_In in Ht as [_ Ht].
    apply negb_true_iff, Z.eqb_neq in Ht. exact Ht.
  - intros t Hne. rewrite Hin.
    assert (Hst : In t (get_transactions st) <-> In t (rows st)).
    { destruct st as [l s]. apply Hin. }
    rewrite Hst, filter_In, negb_true_iff, Z.eqb_neq. tauto.
  - f_equal. f_equal.
    induction (rows st) as [|h l IH]; [reflexivity|]. simpl.
    destruct (tx_id h =? id)%Z eqn:E; simpl; [exact IH|].
    rewrite E. simpl. f_equal. exact IH.
Qed.

Lemma delete_idempotent_witness :
  snd (delete_transaction march_table 7) = Respond 200 [("success", PBool true)]
  /\ forall t, In t (get_transactions (fst (delete_transaction march_table 7))) ->
               tx_id t <> 7%Z.
Proof.
  destruct (delete_idempotent march_table 7 eq_refl) as (H1 & H2 & _).
  split; [exact H1 | exact H2].
Defined.

(** C8 as stated fails: an id beyond 64 bits is refused by the adapter
    when it is bound, and the handler raises instead of answering
    [{success: true}]. *)
Lemma delete_counterexample :
  delete_transaction empty_store (2 ^ 63) = (empty_store, Raise OverflowError)
  /\ Raise OverflowError <> Respond 200 [("success", PBool true)].
Proof. split; [reflexivity | discriminate]. Qed.

End ApiTheorems.

(** * Further properties of the handlers *)

Module ApiExtra.

Import Text Sql Api Invariant Examples TextFacts SqlFacts ApiFacts.

Lemma get_transactions_In (st : store) (t : transaction) :
  In t (get_transactions st) <-> In t (rows st).
Proof.
  unfold get_transactions.
  split; apply Permutation_in; [apply Permutation_sym|]; apply order_by_date_perm.
Qed.

(** X1. [get_transactions] lists every stored transaction exactly as often
    as it is stored, most recent date first. *)
Theorem get_transactions_sorted (st : store) :
  Permutation (rows st) (get_transactions st)
  /\ StronglySorted (fun x y => String.leb (tx_date y) (tx_date x) = true)
                    (get_transactions st).
Proof.
  split; [apply order_by_date_perm|].
  exact (order_by_date_sorted DESC (rows st)).
Qed.

Lemma filter_perm (f : transaction -> bool) (l l' : list transaction) :
  Permutation l l' -> Permutation (List.filter f l) (List.filter f l').
Proof.
  induction 1 as [|x l l' _ IH|x y l|l l' l'' _ IH1 _ IH2]; simpl.
  - constructor.
  - destruct (f x); [constructor|]; exact IH.
  - destruct (f x), (f y); try reflexivity. apply perm_swap.
  - etransitivity; eassumption.
Qed.

Lemma filter_id_absent (id : Z) (l : list transaction) :
  (forall t, In t l -> tx_id t <> id) ->
  List.filter (fun t => (tx_id t =? id)%Z) l = [].
Proof.
  induction l as [|h l IH]; intros H; [reflexivity|]. simpl.
  destruct (tx_id h =? id)%Z eqn:E.
  - apply Z.eqb_eq in E. exfalso. apply (H h); [left; reflexivity | exact E].
  - apply IH. intros t Ht. apply H. right. exact Ht.
Qed.

Lemma max_rowid_nonneg (l : list transaction) : (0 <= max_rowid l)%Z.
Proof. induction l as [|h l IH]; simpl; lia. Qed.

Lemma next_rowid_pos (st : store) : (0 < next_rowid st)%Z.
Proof. unfold next_rowid. pose proof (max_rowid_nonneg (rows st)). lia. Qed.

Lemma next_rowid_seq (st : store) : (seq st < next_rowid st)%Z.
Proof. unfold next_rowid. lia. Qed.

Section Handlers.

Variable float_of_str : string -> option pyfloat.
Variable real_to_text : pyfloat -> string.

#[local] Abbreviation py_float := (py_float float_of_str).
#[local] Abbreviation sql_insert := (sql_insert real_to_text).
#[local] Abbreviation add_transaction := (add_transaction float_of_str real_to_text).
#[local] Abbreviation reachable := (reachable float_of_str real_to_text).

(** What the INSERT can do: append one row under the next rowid, or raise
    and leave the table alone. *)
Lemma sql_insert_cases (st : store) (description ttype category date : pyval)
  (a : pyfloat) :
  (exists tx,
     sql_insert st description a ttype category date
     = Ok (mkStore (rows st ++ [tx]) (next_rowid st), next_rowid st)
     /\ tx_id tx = next_rowid st /\ tx_amount tx = a)
  \/ (exists e, sql_insert st description a ttype category date = Exc e).
Proof.
  unfold Api.sql_insert.
  destruct (adapt description) as [sd|e]; simpl; [|right; eauto].
  destruct (adapt ttype) as [st0|e]; simpl; [|right; eauto].
  destruct (adapt category) as [sc|e]; simpl; [|right; eauto].
  destruct (adapt date) as [sdt|e]; simpl; [|right; eauto].
  destruct (text_column real_to_text "description" sd) as [d'|e]; simpl;
    [|right; eauto].
  unfold amount_column.
  destruct (Float.is_nan a); simpl; [right; eauto|].
  destruct (text_column real_to_text "type" st0) as [t'|e]; simpl; [|right; eauto].
  destruct (text_column real_to_text "category" sc) as [c'|e]; simpl; [|right; eauto].
  destruct (text_column real_to_text "date" sdt) as [dt'|e]; simpl; [|right; eauto].
  left. eexists (mkTx _ _ _ _ _ _). split; [reflexivity|]. split; reflexivity.
Qed.

(** The two ways a POST can end: one row appended under the next rowid and
    the success answer with that id, or the table as it was and an answer
    that is a 400 or an exception. *)
Lemma add_transaction_cases (st : store) (data : pyval) :
  (exists tx,
     snd (add_transaction st data) = created (next_rowid st)
     /\ fst (add_transaction st data) = mkStore (rows st ++ [tx]) (next_rowid st)
     /\ tx_id tx = next_rowid st)
  \/ (fst (add_transaction st data) = st
      /\ ((exists error, snd (add_transaction st data) = bad_request error)
          \/ exists e, snd (add_transaction st data) = Raise e)).
Proof.
  unfold Api.add_transaction.
  destruct (truthy data); simpl negb; cbv iota; [|right; simpl; eauto].
  destruct data as [|b|z|x|s| |l|d]; try (right; simpl; eauto; fail).
  destruct (negb (truthy (dict_get d "description")) || is_none (dict_get d "amount")
            || negb (truthy (dict_get d "type")) || negb (truthy (dict_get d "date")));
    [right; simpl; eauto|].
  destruct (Api.py_float float_of_str (dict_get d "amount")) as [a|e] eqn:Hf.
  - destruct (sql_insert_cases st (dict_get d "description") (dict_get d "type")
                (py_or (dict_get d "category") (PStr EmptyString))
                (dict_get d "date") a)
      as [(tx & -> & Hid & _) | (e & ->)].
    + left. exists tx. simpl. auto.
    + right. destruct e; simpl; eauto.
  - right. destruct e; simpl; eauto.
Qed.

(** X2. Whatever the request, [add_transaction] either appends exactly one
    row under the next rowid and answers [{id, success: true}] with that
    id, or leaves the store untouched and answers with a 400 or raises;
    in the second case the answer is never a success. *)
Theorem add_transaction_effect (st : store) (data : pyval) :
  let st' := fst (add_transaction st data) in
  let out := snd (add_transaction st data) in
  (exists tx,
     out = created (next_rowid st)
     /\ st' = mkStore (rows st ++ [tx]) (next_rowid st)
     /\ tx_id tx = next_rowid st)
  \/ (st' = st
      /\ ((exists error, out = bad_request error) \/ exists e, out = Raise e)
      /\ forall id, out <> created id).
Proof.
  intros st' out. subst st' out.
  destruct (add_transaction_cases st data) as [H | (Hs & Ho)]; [left; exact H|].
  right. split; [exact Hs|]. split; [exact Ho|].
  intros id E. destruct Ho as [[err Ho] | [e Ho]]; rewrite Ho in E; discriminate E.
Qed.

(** X3. After a successful POST the listing contains a transaction with
    the returned id exactly once, that id was used by no transaction
    before, and everything listed before is still listed. *)
Theorem add_then_list (st : store) (data : pyval) (id : Z) :
  snd (add_transaction st data) = created id ->
  let st' := fst (add_transaction st data) in
  (exists tx, In tx (get_transactions st') /\ tx_id tx = id)
  /\ List.length (List.filter (fun t => (tx_id t =? id)%Z) (get_transactions st'))
     = 1%nat
  /\ (forall t, In t (get_transactions st) -> tx_id t <> id)
  /\ (forall t, In t (get_transactions st) -> In t (get_transactions st')).
Proof.
  intros Hout st'. subst st'.
  destruct (add_transaction_cases st data)
    as [(tx & Ho & Hs & Hid) | (_ & [[err Ho] | [e Ho]])];
    rewrite Ho in Hout; try discriminate Hout.
  injection Hout as <-. rewrite Hs.
  assert (Hfresh : forall t, In t (rows st) -> tx_id t <> next_rowid st).
  { intros t Ht E. apply next_rowid_fresh in Ht. lia. }
  split; [|split; [|split]].
  - exists tx. split; [|exact Hid].
    apply get_transactions_In. simpl. apply in_or_app. right. left. reflexivity.
  - assert (P : Permutation
                  (List.filter (fun t => (tx_id t =? next_rowid st)%Z)
                     (rows st ++ [tx]))
                  (List.filter (fun t => (tx_id t =? next_rowid st)%Z)
                     (get_transactions (mkStore (rows st ++ [tx]) (next_rowid st))))).
    { apply filter_perm. apply order_by_date_perm. }
    rewrite <- (Permutation_length P), List.filter_app, length_app.
    rewrite (filter_id_absent _ _ Hfresh). simpl. rewrite Hid, Z.eqb_refl. reflexivity.
  - intros t Ht. apply Hfresh. apply get_transactions_In, Ht.
  - intros t Ht. apply get_transactions_In. simpl. apply in_or_app. left.
    apply get_transactions_In, Ht.
Qed.

Lemma NoDup_ids_filter (f : transaction -> bool) (l : list transaction) :
  List.NoDup (map tx_id l) -> List.NoDup (map tx_id (List.filter f l)).
Proof.
  induction l as [|h l IH]; simpl; intros H; [constructor|].
  inversion H as [|? ? Hnot Hnd]; subst.
  destruct (f h); simpl; [|exact (IH Hnd)].
  constructor; [|exact (IH Hnd)].
  intros Hin. apply Hnot. apply in_map_iff in Hin as (t & E & Ht).
  apply filter_In in Ht as [Ht _]. apply in_map_iff. exists t. auto.
Qed.

Lemma delete_ids_ok (st : store) (id : Z) :
  ids_ok st -> ids_ok (fst (delete_transaction st id)).
Proof.
  intros [Hnd Hb]. unfold delete_transaction.
  destruct (adapt (PInt id)); simpl; [|split; assumption].
  split; [apply NoDup_ids_filter, Hnd|].
  intros t Ht. apply filter_In in Ht as [Ht _]. apply Hb, Ht.
Qed.

Lemma add_ids_ok (st : store) (data : pyval) :
  ids_ok st -> ids_ok (fst (add_transaction st data)).
Proof.
  intros [Hnd Hb].
  destruct (add_transaction_cases st data) as [(tx & _ & -> & Hid) | (-> & _)];
    [|split; assumption].
  pose proof (next_rowid_seq st) as Hs. pose proof (next_rowid_pos st) as Hp.
  split; simpl.
  - rewrite map_app. simpl. apply List.NoDup_app; [exact Hnd | |].
    + repeat constructor. intros [].
    + intros x Hx [<-|[]]. apply in_map_iff in Hx as (t & E & Ht).
      specialize (Hb t Ht). lia.
  - intros t Ht. apply in_app_or in Ht as [Ht | [<- | []]].
    + specialize (Hb t Ht). lia.
    + lia.
Qed.

(** X4. In every store the application can reach from the empty table by
    POST and DELETE requests, row ids are distinct, positive and at most
    the AUTOINCREMENT counter. *)
Theorem reachable_ids_ok (st : store) : reachable st -> ids_ok st.
Proof.
  induction 1 as [|st data _ IH|st id _ IH].
  - split; [constructor | intros t []].
  - apply add_ids_ok, IH.
  - apply delete_ids_ok, IH.
Qed.

(** X5. An id is never handed out twice: whatever is deleted first, the id
    of a transaction inserted afterwards is larger than every id the table
    held before the deletion, the deleted one included. *)
Theorem id_never_reused (st : store) (id : Z) (data : pyval) (n : Z) :
  ids_ok st ->
  snd (add_transaction (fst (delete_transaction st id)) data) = created n ->
  forall t, In t (rows st) -> (tx_id t < n)%Z.
Proof.
  intros [_ Hb] Hout t Ht.
  assert (Hseq : seq (fst (delete_transaction st id)) = seq st).
  { unfold delete_transaction. destruct (adapt (PInt id)); reflexivity. }
  destruct (add_transaction_cases (fst (delete_transaction st id)) data)
    as [(tx & Ho & _ & _) | (_ & [[err Ho] | [e Ho]])];
    rewrite Ho in Hout; try discriminate Hout.
  injection Hout as <-.
  pose proof (next_rowid_seq (fst (delete_transaction st id))) as Hs.
  rewrite Hseq in Hs. specialize (Hb t Ht). lia.
Qed.

(** X6. Deleting the transaction a POST has just created gives back the
    rows the table had before the POST (the counter stays advanced), as
    long as the id fits 64 bits. *)
Theorem add_then_delete (st : store) (data : pyval) (n : Z) :
  snd (add_transaction st data) = created n ->
  (n < 2 ^ 63)%Z ->
  delete_transaction (fst (add_transaction st data)) n
  = (mkStore (rows st) n, Respond 200 [("success", PBool true)]).
Proof.
  intros Hout Hn.
  destruct (add_transaction_cases st data)
    as [(tx & Ho & Hs & Hid) | (_ & [[err Ho] | [e Ho]])];
    rewrite Ho in Hout; try discriminate Hout.
  injection Hout as <-. rewrite Hs.
  pose proof (next_rowid_pos st) as Hp.
  unfold delete_transaction. simpl adapt.
  assert (Hi : int64 (next_rowid st) = true).
  { unfold int64. apply andb_true_intro. split; [apply Z.leb_le | apply Z.ltb_lt]; lia. }
  rewrite Hi. simpl. f_equal. f_equal.
  rewrite List.filter_app. simpl. rewrite Hid, Z.eqb_refl. simpl.
  rewrite app_nil_r.
  assert (Hfresh : forall t, In t (rows st) -> tx_id t <> next_rowid st).
  { intros t Ht E. apply next_rowid_fresh in Ht. lia. }
  induction (rows st) as [|h l IH] in Hfresh |- *; [reflexivity|]. simpl.
  destruct (tx_id h =? next_rowid st)%Z eqn:E.
  - apply Z.eqb_eq in E. exfalso. apply (Hfresh h); [left; reflexivity | exact E].
  - simpl. f_equal. apply IH. intros t Ht. apply Hfresh. right. exact Ht.
Qed.

(** X9. The checks of [add_transaction] run in a fixed order and each has
    its own message: a falsy body is [Invalid JSON payload]; an object
    lacking a required field is [Missing required fields] even when its
    amount is not a number; an amount that does not convert is
    [Invalid amount] even when a text field could not be stored. *)
Theorem add_transaction_errors (st : store) (data : pyval) :
  (truthy data = false ->
   add_transaction st data = (st, bad_request "Invalid JSON payload"))
  /\ (forall d, data = PDict d -> d <> [] -> missing_required d ->
        add_transaction st data = (st, bad_request "Missing required fields"))
  /\ (forall d, data = PDict d -> ~ missing_required d ->
        not_a_number float_of_str (dict_get d "amount") ->
        add_transaction st data = (st, bad_request "Invalid amount")).
Proof.
  split; [|split].
  - intros Hf. unfold Api.add_transaction. rewrite Hf. reflexivity.
  - intros d -> Hne M. unfold Api.add_transaction.
    assert (Ht : truthy (PDict d) = true) by (destruct d; [congruence | reflexivity]).
    rewrite Ht. simpl negb. cbv iota.
    apply missing_required_dec in M. rewrite M. reflexivity.
  - intros d -> M N. unfold Api.add_transaction.
    assert (Hm : negb (truthy (dict_get d "description"))
                 || is_none (dict_get d "amount")
                 || negb (truthy (dict_get d "type"))
                 || negb (truthy (dict_get d "date")) = false).
    { destruct (_ || _ || _ || _) eqn:E; [|reflexivity].
      apply missing_required_dec in E. contradiction. }
    assert (Ht : truthy (PDict d) = true).
    { destruct d; [|reflexivity]. exfalso. apply M. left. reflexivity. }
    rewrite Ht, Hm. simpl negb. cbv iota.
    destruct N as [-> | ->]; reflexivity.
Qed.

End Handlers.

(** X7. Deleting an id that no transaction has leaves the store exactly as
    it was, whatever the id. *)
Theorem delete_absent (st : store) (id : Z) :
  (forall t, In t (rows st) -> tx_id t <> id) ->
  fst (delete_transaction st id) = st.
Proof.
  intros H. unfold delete_transaction.
  destruct (adapt (PInt id)); [|reflexivity]. simpl.
  destruct st as [l s]. simpl in *. f_equal.
  induction l as [|h l IH]; [reflexivity|]. simpl.
  destruct (tx_id h =? id)%Z eqn:E.
  - apply Z.eqb_eq in E. exfalso. apply (H h); [left; reflexivity | exact E].
  - simpl. f_equal. apply IH. intros t Ht. apply H. right. exact Ht.
Qed.

(** X8. Two deletions commute: the store after deleting [a] then [b] is the
    store after deleting [b] then [a]. *)
Theorem delete_commutes (st : store) (a b : Z) :
  fst (delete_transaction (fst (delete_transaction st a)) b)
  = fst (delete_transaction (fst (delete_transaction st b)) a).
Proof.
  unfold delete_transaction.
  destruct (adapt (PInt a)), (adapt (PInt b)); simpl; try reflexivity.
  f_equal. induction (rows st) as [|h l IH]; [reflexivity|]. simpl.
  destruct (tx_id h =? a)%Z eqn:Ea, (tx_id h =? b)%Z eqn:Eb; simpl;
    rewrite ?Ea, ?Eb; simpl; rewrite IH; reflexivity.
Qed.

Lemma add_then_list_witness :
  exists tx,
    In tx (get_transactions
             (fst (add_transaction digits_float two_decimal_text
                     empty_store coffee_request)))
    /\ tx_id tx = 1%Z.
Proof.
  exact (proj1 (add_then_list digits_float two_decimal_text
                  empty_store coffee_request 1 eq_refl)).
Defined.

Lemma reachable_ids_ok_witness :
  ids_ok (fst (delete_transaction
                 (fst (add_transaction digits_float two_decimal_text
                         empty_store coffee_request)) 1)).
Proof.
  apply (reachable_ids_ok digits_float two_decimal_text).
  apply reach_delete, reach_add, reach_init.
Defined.

Lemma march_table_ids_ok : ids_ok march_table.
Proof.
  split.
  - repeat constructor; simpl; intuition discriminate.
  - intros t [<-|[<-|[]]]; simpl; lia.
Qed.

Lemma id_never_reused_witness :
  List.Forall (fun t => (tx_id t < 3)%Z) (rows march_table).
Proof.
  apply List.Forall_forall.
  apply (id_never_reused digits_float two_decimal_text march_table 2
           coffee_request 3 march_table_ids_ok).
  reflexivity.
Defined.

Lemma add_then_delete_witness :
  delete_transaction
    (fst (add_transaction digits_float two_decimal_text march_table coffee_request)) 3
  = (mkStore (rows march_table) 3, Respond 200 [("success", PBool true)]).
Proof.
  apply add_then_delete; reflexivity.
Defined.

Lemma add_transaction_errors_witness :
  add_transaction digits_float two_decimal_text march_table undated_request
  = (march_table, bad_request "Missing required fields").
Proof.
  destruct (add_transaction_errors digits_float two_decimal_text
              march_table undated_request) as (_ & H & _).
  eapply H; [reflexivity | discriminate |].
  right. right. right. reflexivity.
Defined.

Lemma delete_absent_witness : fst (delete_transaction march_table 7) = march_table.
Proof.
  apply delete_absent. intros t [<-|[<-|[]]]; simpl; lia.
Defined.

End ApiExtra.

(** * Further properties of the statistics *)

Module StatsExtra.

Import Text Sql Dict Stats Invariant Examples TextFacts SqlFacts DictFacts StatsFacts.

(** ** [totals] for every month *)

Lemma of_type_nil_absent (ty : string) (l : list transaction) :
  of_type ty l = [] -> ~ In ty (map fst (group_sum tx_type l)).
Proof.
  intros E Hin. apply group_sum_key_In in Hin as (t & Hin & Ety).
  assert (H : In t (of_type ty l)).
  { apply filter_In. split; [exact Hin | apply String.eqb_eq, Ety]. }
  rewrite E in H. destruct H.
Qed.

Lemma of_type_present (ty : string) (l : list transaction) :
  of_type ty l <> [] ->
  In (ty, sum_amounts (of_type ty l)) (group_sum tx_type l).
Proof.
  intros Hne. unfold group_sum. apply in_map_iff. exists ty. split; [reflexivity|].
  apply sort_uniq_In, in_map_iff.
  destruct (of_type ty l) as [|t r] eqn:E; [congruence|].
  assert (H : In t (of_type ty l)) by (rewrite E; left; reflexivity).
  apply filter_In in H as [H1 H2]. apply String.eqb_eq in H2.
  exists t. split; [exact H2 | exact H1].
Qed.

Lemma totals_lookup (st : store) (month ty : string) :
  let matched := where_like month (rows st) in
  totals (get_statistics st month) !! ty
  = if existsb (String.eqb ty) ["income"; "expense"]
    then Some (sum_amounts (of_type ty matched))
    else match of_type ty matched with
         | [] => None
         | _ => Some (sum_amounts (of_type ty matched))
         end.
Proof.
  intros matched. simpl totals. rewrite totals_of_fill. fold matched.
  destruct (of_type ty matched) as [|t r] eqn:E.
  - rewrite fill_absent by (apply of_type_nil_absent, E).
    simpl existsb. rewrite orb_false_r.
    destruct (String.eqb_spec ty "income") as [->|H1]; [reflexivity|].
    destruct (String.eqb_spec ty "expense") as [->|H2]; [reflexivity|].
    simpl. rewrite !lookup_insert_ne by congruence. apply lookup_empty.
  - rewrite <- E.
    rewrite (fill_present (fun q => q) _ _ ty (sum_amounts (of_type ty matched))).
    + destruct (existsb _ _); reflexivity.
    + rewrite group_sum_keys. apply sort_uniq_NoDup.
    + apply of_type_present. rewrite E. discriminate.
Qed.

(** X10. For every month argument, [totals] holds under "income" and under
    "expense" the sum of the amounts of the transactions of that type whose
    date matches [month%] (0 when there is none, NULL when the sum is not a
    number), holds every other type that occurs among them under its own
    name, and holds nothing else. *)
Theorem totals_exact (st : store) (month ty : string) :
  let matched := where_like month (rows st) in
  totals (get_statistics st month) !! ty
  = if existsb (String.eqb ty) ["income"; "expense"]
    then Some (sum_amounts (of_type ty matched))
    else match of_type ty matched with
         | [] => None
         | _ => Some (sum_amounts (of_type ty matched))
         end.
Proof. exact (totals_lookup st month ty). Qed.

(** X11. [categories] lists each category of the month's expense
    transactions once, in ascending order of name, with the sum of the
    amounts of the expenses of that category; transactions of other types
    never contribute. *)
Theorem categories_exact (st : store) (month : string) :
  let expenses := where_expense (where_like month (rows st)) in
  let cats := categories (get_statistics st month) in
  StronglySorted str_lt (map fst cats)
  /\ (forall c, In c (map fst cats) <->
        exists t, In t (rows st) /\ like (month +:+ "%") (tx_date t) = true
                  /\ tx_type t = "expense" /\ tx_category t = c)
  /\ (forall c v, In (c, v) cats ->
        v = sum_amounts (List.filter (fun t => String.eqb (tx_category t) c) expenses)).
Proof.
  intros expenses cats. subst cats. simpl categories. fold expenses.
  split; [rewrite group_sum_keys; apply sort_uniq_sorted|]. split.
  - intros c. rewrite group_sum_key_In. split.
    + intros (t & Ht & Ec). apply filter_In in Ht as [Ht Ety].
      apply filter_In in Ht as [Ht Hl]. apply String.eqb_eq in Ety.
      exists t. auto.
    + intros (t & Ht & Hl & Ety & Ec). exists t. split; [|exact Ec].
      apply filter_In. split; [|apply String.eqb_eq, Ety].
      apply filter_In. auto.
  - intros c v. apply group_sum_In.
Qed.

(** X12. [daily] lists each date on which the month has an expense once,
    in ascending order of date, with the sum of that day's expenses. *)
Theorem daily_exact (st : store) (month : string) :
  let expenses := where_expense (where_like month (rows st)) in
  let days := daily (get_statistics st month) in
  StronglySorted str_lt (map fst days)
  /\ (forall d, In d (map fst days) <->
        exists t, In t (rows st) /\ like (month +:+ "%") (tx_date t) = true
                  /\ tx_type t = "expense" /\ tx_date t = d)
  /\ (forall d v, In (d, v) days ->
        v = sum_amounts (List.filter (fun t => String.eqb (tx_date t) d) expenses)).
Proof.
  intros expenses days. subst days. simpl daily. fold expenses.
  split; [rewrite group_sum_keys; apply sort_uniq_sorted|]. split.
  - intros d. rewrite group_sum_key_In. split.
    + intros (t & Ht & Ed). apply filter_In in Ht as [Ht Ety].
      apply filter_In in Ht as [Ht Hl]. apply String.eqb_eq in Ety.
      exists t. auto.
    + intros (t & Ht & Hl & Ety & Ed). exists t. split; [|exact Ed].
      apply filter_In. split; [|apply String.eqb_eq, Ety].
      apply filter_In. auto.
  - intros d v. apply group_sum_In.
Qed.

(** ** The [monthly] entries *)

(** X14. In the [monthly] entry of a month, every type that occurs in that
    month holds the sum of the amounts of the month's transactions of that
    type — also a type called "month", which then replaces the label. *)
Theorem monthly_sums (st : store) (p ty : string) (e : gmap string jval) :
  In (p, e) (monthly_dict st) ->
  of_type ty (in_month (rows st) p) <> [] ->
  e !! ty = Some (json_of (sum_amounts (of_type ty (in_month (rows st) p)))).
Proof.
  intros Hin Hne. rewrite monthly_dict_eq in Hin.
  apply in_map_iff in Hin as (m & E & _). inversion E; subst m e.
  unfold month_entry. apply (fill_present json_of).
  - rewrite group_sum_keys. apply sort_uniq_NoDup.
  - apply of_type_present, Hne.
Qed.

Lemma prefix_substring (p d : string) :
  String.prefix p d = String.eqb (String.substring 0 (String.length p) d) p.
Proof.
  revert d. induction p as [|a p IH]; intros d.
  - destruct d; reflexivity.
  - destruct d as [|c d]; [reflexivity|]. simpl.
    destruct (ascii_dec a c) as [->|Hne].
    + rewrite IH, Ascii.eqb_refl. reflexivity.
    + destruct (Ascii.eqb_spec c a) as [->|_]; [congruence | reflexivity].
Qed.

(** X15. For a month argument of seven literal characters (no wildcard, no
    letter) the [monthly] entry of that month agrees with [totals]: every
    key other than the label "month" holds the same number in both. *)
Theorem monthly_agrees_with_totals (st : store) (p ty : string)
  (e : gmap string jval) :
  plain p = true -> String.length p = 7%nat ->
  In (p, e) (monthly_dict st) ->
  ty <> "month" ->
  e !! ty = json_of <$> totals (get_statistics st p) !! ty.
Proof.
  intros Hp Hlen Hin Hty. rewrite monthly_dict_eq in Hin.
  apply in_map_iff in Hin as (m & E & _). inversion E; subst m e.
  assert (Hm : where_like p (rows st) = in_month (rows st) p).
  { rewrite where_like_prefix by exact Hp. unfold in_month, month_of, substr7.
    apply filter_ext. intros t. rewrite prefix_substring, Hlen. reflexivity. }
  simpl totals. rewrite totals_of_fill, Hm. unfold month_entry.
  destruct (in_dec String.string_dec ty
              (map fst (group_sum tx_type (in_month (rows st) p)))) as [Hk|Hk].
  - apply in_map_iff in Hk as ([k v] & Ek & Hkv). simpl in Ek. subst k.
    assert (Hnd : List.NoDup (map fst (group_sum tx_type (in_month (rows st) p))))
      by (rewrite group_sum_keys; apply sort_uniq_NoDup).
    rewrite (fill_present json_of _ _ ty v Hnd Hkv).
    rewrite (fill_present (fun q => q) _ _ ty v Hnd Hkv). reflexivity.
  - rewrite !fill_absent by exact Hk. unfold new_month.
    rewrite lookup_insert_ne by congruence.
    destruct (String.eqb_spec ty "income") as [->|H1]; [reflexivity|].
    destruct (String.eqb_spec ty "expense") as [->|H2]; [reflexivity|].
    rewrite !lookup_insert_ne by congruence. rewrite !lookup_empty. reflexivity.
Qed.

Lemma monthly_sums_witness :
  exists e,
    In ("2024-03", e) (monthly_dict two_months)
    /\ e !! "income"
       = Some (json_of (sum_amounts
                          (of_type "income" (in_month (rows two_months) "2024-03")))).
Proof.
  exists (month_entry (rows two_months) "2024-03").
  assert (Hin : In ("2024-03", month_entry (rows two_months) "2024-03")
                   (monthly_dict two_months)).
  { rewrite monthly_dict_eq. left. reflexivity. }
  split; [exact Hin|].
  apply (monthly_sums two_months "2024-03" "income" _ Hin).
  vm_compute. discriminate.
Defined.

Lemma monthly_agrees_with_totals_witness :
  month_entry (rows two_months) "2024-04" !! "expense"
  = json_of <$> totals (get_statistics two_months "2024-04") !! "expense".
Proof.
  apply monthly_agrees_with_totals; try reflexivity; [|discriminate].
  rewrite monthly_dict_eq. right. left. reflexivity.
Defined.

End StatsExtra.

(** * Further properties of the CSV export *)

Module ExporterExtra.

Import Text Sql Dict Csv Exporter Invariant Examples.
Import TextFacts SqlFacts DictFacts CsvFacts ExporterFacts.

(** X16. The totals of the export are sums over the matching transactions:
    Total Income is the sum of the amounts of type "income", or 0 when that
    sum is NULL (it is not a number, as for inf plus -inf), Total Expense
    likewise for type "expense", and the balance is their difference;
    transactions of any other type change none of the three. *)
Theorem csv_totals_exact (st : store) (a : csv_args) :
  let written ty := get_total (csv_totals st a) ty in
  (forall ty, In ty ["income"; "expense"] ->
     match sum_amounts (of_type ty (matching st a)) with
     | Some x => Float.same (written ty) x
     | None => written ty = Finite 0
     end)
  /\ balance st a = Float.sub (written "income") (written "expense").
Proof.
  intros written. subst written. split; [|reflexivity].
  intros ty Hty. unfold get_total, csv_totals.
  change (fold_left _ (group_sum tx_type (matching st a)) _)
    with (fill or_zero (group_sum tx_type (matching st a))
               (<["income" := Finite 0]> (<["expense" := Finite 0]> ∅))).
  destruct (of_type ty (matching st a)) as [|t r] eqn:E.
  - rewrite fill_absent by (apply StatsExtra.of_type_nil_absent, E).
    destruct Hty as [<-|[<-|[]]]; reflexivity.
  - rewrite <- E.
    rewrite (fill_present or_zero _ _ ty (sum_amounts (of_type ty (matching st a)))).
    + destruct (sum_amounts (of_type ty (matching st a))) as [x|];
        [apply or_zero_same | reflexivity].
    + rewrite group_sum_keys. apply sort_uniq_NoDup.
    + apply StatsExtra.of_type_present. rewrite E. discriminate.
Qed.

Lemma csv_totals_exact_witness :
  sum_amounts (of_type "income" (matching windfalls march_multi)) = None
  /\ get_total (csv_totals windfalls march_multi) "income" = Finite 0.
Proof.
  split; [reflexivity|].
  exact (proj1 (csv_totals_exact windfalls march_multi) "income"
               (or_introl eq_refl)).
Defined.

Lemma matching_order (st : store) (a1 a2 : csv_args) :
  arg_month a1 = arg_month a2 -> matching st a1 = matching st a2.
Proof. unfold matching, month_filter. intros ->. reflexivity. Qed.

(** X17. The order parameter only permutes the transaction records: two
    exports that differ in [order] alone start with the same header and
    summary records and hold the same transaction records, each as often
    in one as in the other. *)
Theorem order_only_permutes (st : store) (a1 a2 : csv_args) :
  arg_month a1 = arg_month a2 ->
  arg_single a1 = arg_single a2 ->
  let r1 := reader (csv_data (download_csv st a1)) in
  let r2 := reader (csv_data (download_csv st a2)) in
  firstn (preamble a1) r1 = firstn (preamble a1) r2
  /\ Permutation (skipn (preamble a1) r1) (skipn (preamble a1) r2).
Proof.
  intros Hm Hs r1 r2. subst r1 r2. rewrite !reader_download_csv.
  pose proof (matching_order st a1 a2 Hm) as Hmatch.
  assert (Ht : csv_totals st a1 = csv_totals st a2)
    by (unfold csv_totals; rewrite Hmatch; reflexivity).
  assert (Hf : single_flag a1 = single_flag a2)
    by (unfold single_flag; rewrite Hs; reflexivity).
  assert (Hsum : summary_line st a1 = summary_line st a2)
    by (unfold summary_line, balance; rewrite Ht; reflexivity).
  assert (Hrow : summary_row st a1 = summary_row st a2)
    by (unfold summary_row, balance; rewrite Ht; reflexivity).
  assert (Hno : no_tx_row st a1 = no_tx_row st a2)
    by (unfold no_tx_row, balance; rewrite Ht; reflexivity).
  assert (P : Permutation (transactions st a1) (transactions st a2)).
  { unfold transactions. rewrite <- !order_by_date_perm, Hmatch. reflexivity. }
  unfold preamble, csv_rows. rewrite <- Hf, <- Hsum, <- Hrow, <- Hno.
  destruct (single_flag a1); simpl firstn; simpl skipn;
    (split; [reflexivity|]);
    destruct (transactions st a1) as [|t1 l1] eqn:E1,
             (transactions st a2) as [|t2 l2] eqn:E2;
    try reflexivity;
    try (apply Permutation_nil in P; discriminate P);
    try (apply Permutation_sym, Permutation_nil in P; discriminate P);
    first [ exact (Permutation_map (fun tx => [single_line tx]) P)
          | exact (Permutation_map tx_row P) ].
Qed.

(** X18. Whatever characters the stored text holds (commas, quotes, line
    breaks), the document reads back with a fixed shape: nine fields in
    every record of the multi-column layout and one field in every record
    of the single-column layout, and as many records as matching
    transactions (one placeholder when there is none) after the leading
    two, respectively three. *)
Theorem export_shape (st : store) (a : csv_args) :
  let records := reader (csv_data (download_csv st a)) in
  (forall r, In r records ->
             List.length r = if single_flag a then 1%nat else 9%nat)
  /\ List.length records
     = (preamble a + Nat.max 1 (List.length (matching st a)))%nat.
Proof.
  intros records. subst records. rewrite reader_download_csv.
  assert (Hlen : List.length (transactions st a) = List.length (matching st a)).
  { symmetry. apply Permutation_length, order_by_date_perm. }
  unfold preamble, csv_rows. rewrite <- Hlen.
  destruct (single_flag a); (split; [intros r Hr | ]).
  - destruct Hr as [<-|[<-|[<-|Hr]]]; try reflexivity.
    destruct (transactions st a) as [|t l].
    + destruct Hr as [<-|[]]. reflexivity.
    + apply in_map_iff in Hr as (x & <- & _). reflexivity.
  - destruct (transactions st a) as [|t l]; simpl; [reflexivity|].
    rewrite length_map. reflexivity.
  - destruct Hr as [<-|[<-|Hr]]; try reflexivity.
    destruct (transactions st a) as [|t l].
    + destruct Hr as [<-|[]]. reflexivity.
    + apply in_map_iff in Hr as (x & <- & _). reflexivity.
  - destruct (transactions st a) as [|t l]; simpl; [reflexivity|].
    rewrite length_map. reflexivity.
Qed.

(** X19. In the single-column layout with at least one matching
    transaction, all of them with a type made of ASCII characters, the
    document reads back as [Data], the summary line, an empty record and
    then one line per transaction, in date order, of the form
    [ID:<id> | <description> | <Type> <amount> | Category: <category>
    | Date: <date>] with the type capitalised and the amount formatted
    with [:.2f]. *)
Theorem single_layout (st : store) (a : csv_args) :
  single_flag a = true ->
  matching st a <> [] ->
  forallb (fun tx => is_ascii (tx_type tx)) (matching st a) = true ->
  let income := get_total (csv_totals st a) "income" in
  let expense := get_total (csv_totals st a) "expense" in
  reader (csv_data (download_csv st a))
  = ["Data"]
    :: ["Total Income: " +:+ format_2f income
        +:+ " | Total Expense: " +:+ format_2f expense
        +:+ " | Balance: " +:+ format_2f (Float.sub income expense)]
    :: [EmptyString]
    :: map (fun tx =>
              ["ID:" +:+ str_of_Z (tx_id tx) +:+ " | " +:+ tx_description tx
               +:+ " | " +:+ capitalize (tx_type tx) +:+ " "
               +:+ format_2f (tx_amount tx)
               +:+ " | Category: " +:+ tx_category tx
               +:+ " | Date: " +:+ tx_date tx])
           (transactions st a).
Proof.
  intros Hs Hne _ income expense. rewrite reader_download_csv.
  unfold csv_rows. rewrite Hs.
  destruct (transactions st a) eqn:E; [|reflexivity].
  apply matching_transactions_nil in E. contradiction.
Qed.

(** ** Ascending and descending order *)

Lemma sorted_rev (l : list transaction) :
  StronglySorted (date_ord DESC) l -> StronglySorted (date_ord ASC) (rev l).
Proof.
  induction 1 as [|x l Hs IH Hall]; simpl; [constructor|].
  assert (G : forall l1, StronglySorted (date_ord ASC) l1 ->
                List.Forall (fun y => date_ord ASC y x) l1 ->
                StronglySorted (date_ord ASC) (l1 ++ [x])).
  { clear. induction 1 as [|y l1 Hs IH Hall]; intros Hx; simpl.
    - repeat constructor.
    - inversion Hx as [|? ? Hy Hx']; subst.
      constructor; [apply IH, Hx'|].
      apply List.Forall_app. split; [exact Hall | repeat constructor; exact Hy]. }
  apply G; [exact IH|].
  apply List.Forall_rev. exact Hall.
Qed.

Lemma same_date_same_row (l : list transaction) (x y : transaction) :
  List.NoDup (map tx_date l) -> In x l -> In y l -> tx_date x = tx_date y -> x = y.
Proof.
  induction l as [|h l IH]; simpl; intros Hnd Hx Hy E; [destruct Hx|].
  inversion Hnd as [|? ? Hnot Hnd']; subst.
  destruct Hx as [<-|Hx], Hy as [<-|Hy]; [reflexivity | | |apply IH; assumption].
  - exfalso. apply Hnot. rewrite E. apply in_map, Hy.
  - exfalso. apply Hnot. rewrite <- E. apply in_map, Hx.
Qed.

Lemma sorted_unique (l l1 l2 : list transaction) :
  List.NoDup (map tx_date l) ->
  Permutation l l1 -> Permutation l l2 ->
  StronglySorted (date_ord ASC) l1 -> StronglySorted (date_ord ASC) l2 ->
  l1 = l2.
Proof.
  intros Hnd P1 P2 S1. revert l l2 Hnd P1 P2.
  induction S1 as [|x l1 S1 IH H1]; intros l l2 Hnd P1 P2 S2.
  - apply Permutation_sym, Permutation_nil in P1. subst l.
    apply Permutation_nil in P2. congruence.
  - destruct S2 as [|y l2 S2 H2].
    + apply Permutation_sym, Permutation_nil in P2. subst l.
      apply Permutation_nil in P1. discriminate P1.
    + assert (P : Permutation (x :: l1) (y :: l2))
        by (rewrite <- P1; exact P2).
      assert (Exy : x = y).
      { assert (Hx : In x (y :: l2)) by (apply (Permutation_in _ P); left; reflexivity).
        assert (Hy : In y (x :: l1))
          by (apply (Permutation_in _ (Permutation_sym P)); left; reflexivity).
        destruct Hx as [->|Hx]; [reflexivity|].
        destruct Hy as [->|Hy]; [reflexivity|].
        rewrite List.Forall_forall in H1, H2.
        apply (same_date_same_row l).
        - exact Hnd.
        - apply (Permutation_in _ (Permutation_sym P1)). left. reflexivity.
        - apply (Permutation_in _ (Permutation_sym P2)). left. reflexivity.
        - apply String.leb_antisym; [apply (H1 y Hy) | apply (H2 x Hx)]. }
      subst y. f_equal.
      apply (IH l1 l2); [| reflexivity | | exact S2].
      * assert (Hnd' : List.NoDup (map tx_date (x :: l1))).
        { eapply Permutation_NoDup; [|exact Hnd]. apply Permutation_map, P1. }
        inversion Hnd'. assumption.
      * apply (Permutation_cons_inv P).
Qed.

Lemma order_by_date_rev (l : list transaction) :
  List.NoDup (map tx_date l) ->
  order_by_date DESC l = rev (order_by_date ASC l).
Proof.
  intros Hnd. rewrite <- (rev_involutive (order_by_date DESC l)). f_equal.
  apply (sorted_unique l); [exact Hnd | | | |].
  - rewrite <- Permutation_rev. apply order_by_date_perm.
  - apply order_by_date_perm.
  - apply sorted_rev, order_by_date_sorted.
  - apply order_by_date_sorted.
Qed.

(** X20. When no two matching transactions share a date, the descending
    export lists the transactions in exactly the reverse of the ascending
    order; with equal dates only the order among them can differ. *)
Theorem desc_is_reverse_of_asc (st : store) (a1 a2 : csv_args) :
  arg_month a1 = arg_month a2 ->
  order_clause a1 = ASC -> order_clause a2 = DESC ->
  List.NoDup (map tx_date (matching st a1)) ->
  transactions st a2 = rev (transactions st a1).
Proof.
  intros Hm H1 H2 Hnd. unfold transactions.
  rewrite H1, H2, <- (matching_order st a1 a2 Hm). apply order_by_date_rev, Hnd.
Qed.

Lemma desc_is_reverse_of_asc_witness :
  transactions march_table (mkArgs None None (Some "desc"))
  = rev (transactions march_table (mkArgs None None None)).
Proof.
  apply desc_is_reverse_of_asc; try reflexivity.
  repeat constructor; simpl; intuition discriminate.
Defined.

Lemma order_only_permutes_witness :
  Permutation
    (skipn 2 (reader (csv_data (download_csv march_table march_multi))))
    (skipn 2 (reader (csv_data
                (download_csv march_table (mkArgs (Some "2024-03") None (Some "desc")))))).
Proof.
  exact (proj2 (order_only_permutes march_table march_multi
                  (mkArgs (Some "2024-03") None (Some "desc")) eq_refl eq_refl)).
Defined.

Lemma single_layout_witness :
  reader (csv_data (download_csv march_table march_single))
  = [["Data"];
     ["Total Income: 3000.00 | Total Expense: 4.50 | Balance: 2995.50"];
     [EmptyString];
     ["ID:2 | Salary | Income 3000.00 | Category:  | Date: 2024-03-01"];
     ["ID:1 | Coffee, large | Expense 4.50 | Category: Food | Date: 2024-03-05"]].
Proof.
  rewrite (single_layout march_table march_single eq_refl).
  - vm_compute. reflexivity.
  - vm_compute. discriminate.
  - reflexivity.
Defined.

(** ** Rendering of amounts *)

(** X21. An amount strictly between minus half a cent and zero is written
    [-0.00]: the sign survives the rounding. *)
Theorem format_2f_negative_zero (q : Q) :
  (- (1 # 200) < q)%Q -> (q < 0)%Q -> format_2f (Finite q) = "-0.00".
Proof.
  destruct q as [n d]. unfold Qlt. simpl. intros Hlo Hneg.
  assert (Hn : (n < 0)%Z) by lia.
  unfold format_2f, fixed_2. simpl Qnum.
  assert (Hs : (n <? 0)%Z = true) by (apply Z.ltb_lt; exact Hn). rewrite Hs.
  assert (Hc : round_half_even (Qabs (n # d) * 100) = 0%Z).
  { unfold round_half_even. simpl Qnum. simpl Qden.
    rewrite Pos.mul_1_r.
    assert (Ha : Z.abs n = (- n)%Z) by lia. rewrite Ha.
    assert (Hsmall : (0 <= - n * 100 < Z.pos d)%Z) by lia.
    rewrite (Z.div_small _ _ Hsmall), (Z.mod_small _ _ Hsmall).
    assert (H2 : (2 * (- n * 100) <? Z.pos d)%Z = true) by (apply Z.ltb_lt; lia).
    rewrite H2. reflexivity. }
  rewrite Hc. reflexivity.
Qed.

Lemma format_2f_negative_zero_witness :
  format_2f (Finite (- (1 # 1000))) = "-0.00".
Proof. apply format_2f_negative_zero; reflexivity. Defined.

End ExporterExtra.

(** * The endpoints together *)

Module CompositionExtra.

Import Text Sql Dict Stats Api Invariant Examples.
Import TextFacts SqlFacts ApiFacts ApiExtra StatsExtra.

Lemma total_snoc (l : list transaction) (t : transaction) :
  total (l ++ [t]) = Float.add (total l) (tx_amount t).
Proof. unfold total. rewrite map_app, fold_left_app. reflexivity. Qed.

(** The sum after one more row, from the sum before it: NULL stays NULL,
    and a number becomes NULL when adding the amount gives no number. *)
Lemma sum_amounts_snoc (l : list transaction) (t : transaction) :
  sum_amounts (l ++ [t])
  = match sum_amounts l with
    | Some x => if Float.is_nan (Float.add x (tx_amount t)) then None
                else Some (Float.add x (tx_amount t))
    | None => None
    end.
Proof.
  unfold sum_amounts. rewrite total_snoc.
  destruct (total l); simpl; reflexivity.
Qed.

Section Handlers.

Variable float_of_str : string -> option pyfloat.
Variable real_to_text : pyfloat -> string.

#[local] Abbreviation add_transaction := (add_transaction float_of_str real_to_text).

(** X22. A successful POST changes the statistics of a month only through
    the new transaction: when the new date matches the month and the new
    type is income (expense), the income (expense) total of the month is
    the old total plus the new amount, NULL if the old total was NULL or
    the result is not a number; otherwise the total is unchanged. *)
Theorem post_updates_totals (st : store) (data : pyval) (id : Z)
  (month ty : string) :
  snd (add_transaction st data) = created id ->
  In ty ["income"; "expense"] ->
  exists tx old new,
    rows (fst (add_transaction st data)) = rows st ++ [tx]
    /\ tx_id tx = id
    /\ totals (get_statistics st month) !! ty = Some old
    /\ totals (get_statistics (fst (add_transaction st data)) month) !! ty = Some new
    /\ new = if like (month +:+ "%") (tx_date tx) && String.eqb (tx_type tx) ty
             then match old with
                  | Some x => if Float.is_nan (Float.add x (tx_amount tx)) then None
                              else Some (Float.add x (tx_amount tx))
                  | None => None
                  end
             else old.
Proof.
  intros Hout Hty.
  destruct (add_transaction_cases float_of_str real_to_text st data)
    as [(tx & Ho & Hs & Hid) | (_ & [[err Ho] | [e Ho]])];
    rewrite Ho in Hout; try discriminate Hout.
  injection Hout as <-. rewrite Hs.
  assert (Hex : existsb (String.eqb ty) ["income"; "expense"] = true).
  { apply existsb_exists. exists ty. split; [exact Hty | apply String.eqb_refl]. }
  exists tx, (sum_amounts (of_type ty (where_like month (rows st)))),
    (sum_amounts (of_type ty (where_like month (rows st ++ [tx])))).
  split; [reflexivity|]. split; [exact Hid|].
  split; [rewrite totals_lookup, Hex; reflexivity|].
  split; [rewrite totals_lookup, Hex; reflexivity|].
  unfold where_like, of_type. rewrite !List.filter_app. simpl.
  destruct (like (month +:+ "%") (tx_date tx)); simpl;
    [destruct (String.eqb (tx_type tx) ty); simpl|];
    rewrite ?app_nil_r; try reflexivity.
  apply sum_amounts_snoc.
Qed.

End Handlers.

Lemma post_updates_totals_witness :
  exists tx old new,
    rows (fst (add_transaction digits_float two_decimal_text
                 march_table coffee_request))
    = rows march_table ++ [tx]
    /\ tx_id tx = 3%Z
    /\ totals (get_statistics march_table "2024-03") !! "expense" = Some old
    /\ totals (get_statistics
                 (fst (add_transaction digits_float two_decimal_text
                         march_table coffee_request)) "2024-03") !! "expense"
       = Some new
    /\ new = if like ("2024-03" +:+ "%") (tx_date tx)
                && String.eqb (tx_type tx) "expense"
             then match old with
                  | Some x => if Float.is_nan (Float.add x (tx_amount tx)) then None
                              else Some (Float.add x (tx_amount tx))
                  | None => None
                  end
             else old.
Proof.
  apply (post_updates_totals digits_float two_decimal_text march_table
           coffee_request 3 "2024-03" "expense").
  - reflexivity.
  - right. left. reflexivity.
Defined.

End CompositionExtra.
